(** * Portfolio Checker: the dashboard page, the documented providers and
      history snippet, and the refresh/cache core

    The development follows the repository:
    - [Page] embeds [portfolio-frontend/src/app/page.tsx] (the [Home]
      component): its React state, the two asynchronous loaders, the
      aggregate totals and the chart rows;
    - [CashoutService] embeds the Python provider [get_positions_value] that
      the architecture document quotes from [backend/utils/cashout_service.py];
    - [WalletsContext] embeds the history snippet ([setBalanceHistory]);
    - [Core] holds the part of the refresh/cache engine whose code is not in
      the repository sources; each of its definitions says so.

    Numbers.  The three amounts of a [WalletData], on which the page
    computes, are JavaScript numbers: binary64 floating point ([float]),
    added with the rounding of the machine.  Time stamps are integers
    (milliseconds).  The decimals of the design document, and the numbers
    that the page and the provider only pass along, are exact integers
    counted in millionths of a dollar, the unit of the USDC contract
    ([balance_wei / 1e6]) and of the [DECIMAL(20, 6)] columns of
    [portfolio_snapshots]. *)

From Stdlib Require Import Floats.
From stdpp Require Import base numbers strings list gmap fin_maps pretty.

Abbreviation number := Z.

(** One dollar in the unit of the model ([1e6]). *)
Definition USDC_UNIT : number := 1000000%Z.

(** ** Data model of [page.tsx] *)

Module WalletData.
Record t := mk {
  proxy_address : string;
  usdc_balance : float;
  positions_value : float;
  portfolio_total : float;
  last_updated : number
}.
End WalletData.

Module HistoryEntry.
Record t := mk {
  timestamp : number;
  total : number;
  wallets : gmap string number
}.
End HistoryEntry.

Module WalletConfig.
Record t := mk {
  wallet_id : string;
  name : string;
  proxy_address : string
}.
End WalletConfig.

(** ** JSON values, as [resp.json()] and [res.json()] deliver them.
    An object keeps its members in order; a reader takes the first binding
    of a key. *)

#[warnings="-register-all"]
Inductive json :=
| JNull
| JBool (b : bool)
| JNum (n : number)
| JStr (s : string)
| JArr (items : list json)
| JObj (members : list (string * json)).

(** [key in obj] *)
Definition has_key (k : string) (members : list (string * json)) : bool :=
  bool_decide (k ∈ members.*1).

(** [obj.get(key)], [None] standing for Python's [None] / JS [undefined]. *)
Fixpoint member (k : string) (members : list (string * json)) : option json :=
  match members with
  | [] => None
  | (k', v) :: rest => if decide (k = k') then Some v else member k rest
  end.

(** ** [page.tsx] *)

Module Page.

Inductive Method := GET | POST.

Record Request := mkRequest { method : Method; url : string }.

(** [fetch(url)] without an [init] argument: the method defaults to GET. *)
Definition fetch_request (u : string) : Request :=
  {| method := GET; url := u |}.

(** What awaiting a [fetch] gives: the promise rejects (network failure), or
    a response with its [ok] flag and the value of [res.json()] ([None] when
    [json()] rejects). *)
Inductive Fetched (B : Type) :=
| Rejected
| Response (ok : bool) (body : option B).
Arguments Rejected {B}.
Arguments Response {B} ok body.

(** The members of the answers that the page reads: [data.wallets] of the
    cached view and [data.data] of the refresh; [None] is an absent (falsy)
    member. *)
Record CachedData := mkCachedData { cached_wallets : option (list WalletData.t) }.
Record RefreshedData := mkRefreshedData { refreshed_data : option (list WalletData.t) }.

(** [x || []] *)
Definition or_empty {A} (x : option (list A)) : list A := default [] x.

(** The [useState] cells of [Home]. *)
Record State := mkState {
  mounted : bool;
  wallets : list WalletData.t;
  walletConfigs : list WalletConfig.t;
  history : list HistoryEntry.t;
  loading : bool;
  selectedRange : string;
  lastUpdated : option number
}.

Definition initialState : State :=
  {| mounted := false; wallets := []; walletConfigs := []; history := [];
     loading := false; selectedRange := "1h"; lastUpdated := None |}.

(** The page together with what it did to the outside: the requests it has
    sent, oldest first, and the messages given to [console.error]. *)
Record World := mkWorld {
  state : State;
  sent : list Request;
  console : list string
}.

Definition initialWorld : World :=
  {| state := initialState; sent := []; console := [] |}.

(** An asynchronous handler: it changes the world and either completes or
    throws; a throw keeps the changes made so far. *)
Inductive Completion (A : Type) :=
| Done (a : A)
| Thrown.
Arguments Done {A} a.
Arguments Thrown {A}.

Definition Async (A : Type) : Type := World → Completion A * World.

Definition ret {A} (a : A) : Async A := λ w, (Done a, w).

Definition bind {A B} (m : Async A) (k : A → Async B) : Async B :=
  λ w, match m w with
       | (Done a, w') => k a w'
       | (Thrown, w') => (Thrown, w')
       end.

Declare Scope async_scope.
Delimit Scope async_scope with async.
Notation "'let*' x ':=' m 'in' k" := (bind m (λ x, k))
  (at level 10, x name, m at level 100, k at level 200) : async_scope.
Notation "m >> k" := (bind m (λ _, k))
  (at level 100, right associativity) : async_scope.
Local Open Scope async_scope.

Definition throw {A} : Async A := λ w, (Thrown, w).

(** [try { body } catch (err) { handler }] *)
Definition try_catch (body handler : Async unit) : Async unit :=
  λ w, match body w with
       | (Done a, w') => (Done a, w')
       | (Thrown, w') => handler w'
       end.

(** [try { body } finally { final }] *)
Definition try_finally (body final : Async unit) : Async unit :=
  λ w, match body w with
       | (Done _, w') => final w'
       | (Thrown, w') =>
           match final w' with
           | (_, w'') => (Thrown, w'')
           end
       end.

Definition when (b : bool) (m : Async unit) : Async unit :=
  if b then m else ret ().

Definition update (f : State → State) : Async unit :=
  λ w, (Done (), {| state := f (state w); sent := sent w; console := console w |}).

Definition setWallets (l : list WalletData.t) : Async unit :=
  update (λ s, {| mounted := mounted s; wallets := l; walletConfigs := walletConfigs s;
                  history := history s; loading := loading s;
                  selectedRange := selectedRange s; lastUpdated := lastUpdated s |}).

Definition setWalletConfigs (l : list WalletConfig.t) : Async unit :=
  update (λ s, {| mounted := mounted s; wallets := wallets s; walletConfigs := l;
                  history := history s; loading := loading s;
                  selectedRange := selectedRange s; lastUpdated := lastUpdated s |}).

Definition setHistory (l : list HistoryEntry.t) : Async unit :=
  update (λ s, {| mounted := mounted s; wallets := wallets s;
                  walletConfigs := walletConfigs s; history := l; loading := loading s;
                  selectedRange := selectedRange s; lastUpdated := lastUpdated s |}).

Definition setLoading (b : bool) : Async unit :=
  update (λ s, {| mounted := mounted s; wallets := wallets s;
                  walletConfigs := walletConfigs s; history := history s; loading := b;
                  selectedRange := selectedRange s; lastUpdated := lastUpdated s |}).

Definition setLastUpdated (d : number) : Async unit :=
  update (λ s, {| mounted := mounted s; wallets := wallets s;
                  walletConfigs := walletConfigs s; history := history s;
                  loading := loading s; selectedRange := selectedRange s;
                  lastUpdated := Some d |}).

Definition console_error (msg : string) : Async unit :=
  λ w, (Done (), {| state := state w; sent := sent w; console := console w ++ [msg] |}).

(** The call [fetch(url)]: the request leaves. *)
Definition send (r : Request) : Async unit :=
  λ w, (Done (), {| state := state w; sent := sent w ++ [r]; console := console w |}).

(** [await] of the promise of a [fetch]: a rejection is thrown. *)
Definition await {B} (r : Fetched B) : Async (bool * option B) :=
  match r with
  | Rejected => throw
  | Response ok body => ret (ok, body)
  end.

(** [await res.json()] *)
Definition await_json {B} (body : option B) : Async B :=
  match body with
  | Some b => ret b
  | None => throw
  end.

(** [Math.max(...xs)] on a list that is not empty. *)
Definition Math_max (x : number) (xs : list number) : number := foldl Z.max x xs.

Section Handlers.

(** [process.env.NEXT_PUBLIC_API_URL], absent or a string. *)
Variable NEXT_PUBLIC_API_URL : option string.

Definition API_BASE : string :=
  match NEXT_PUBLIC_API_URL with
  | Some u => if decide (u = "") then "http://localhost:8405" else u
  | None => "http://localhost:8405"
  end.

Definition wallets_url : string := API_BASE +:+ "/api/wallets".
Definition cached_url : string := API_BASE +:+ "/api/portfolio/cached".
Definition history_url : string := API_BASE +:+ "/api/portfolio/history".
Definition refresh_url : string := API_BASE +:+ "/api/portfolio/refresh".

(** [loadCachedData]: the three requests leave together ([Promise.all]); the
    answers are the arguments. *)
Definition loadCachedData
    (configRes : Fetched (list WalletConfig.t))
    (cachedRes : Fetched CachedData)
    (historyRes : Fetched (list HistoryEntry.t)) : Async unit :=
  try_catch
    (send (fetch_request wallets_url) >>
     send (fetch_request cached_url) >>
     send (fetch_request history_url) >>
     let* config := await configRes in
     let* cached := await cachedRes in
     let* hist := await historyRes in
     when config.1 (let* l := await_json config.2 in setWalletConfigs l) >>
     when cached.1
       (let* data := await_json cached.2 in
        let walletList := or_empty (cached_wallets data) in
        setWallets walletList >>
        match walletList with
        | [] => ret ()
        | w :: ws =>
            setLastUpdated
              (Math_max (WalletData.last_updated w) (WalletData.last_updated <$> ws))
        end) >>
     when hist.1 (let* h := await_json hist.2 in setHistory h))
    (console_error "loadCachedData").

(** [refreshData] up to its first [await]: the flag is raised and the
    request to the refresh endpoint leaves. *)
Definition refreshData_start : Async unit :=
  setLoading true >>
  send (fetch_request refresh_url).

(** [refreshData] from the answer of the refresh endpoint on; [now] is the
    value of [new Date()]. *)
Definition refreshData_resume
    (refreshRes : Fetched RefreshedData)
    (historyRes : Fetched (list HistoryEntry.t))
    (now : number) : Async unit :=
  try_finally
    (try_catch
       (let* refreshed := await refreshRes in
        when refreshed.1
          (let* data := await_json refreshed.2 in
           setWallets (or_empty (refreshed_data data)) >>
           setLastUpdated now >>
           send (fetch_request history_url) >>
           let* hist := await historyRes in
           when hist.1 (let* h := await_json hist.2 in setHistory h)))
       (console_error "refreshData"))
    (setLoading false).

Definition refreshData
    (refreshRes : Fetched RefreshedData)
    (historyRes : Fetched (list HistoryEntry.t))
    (now : number) : Async unit :=
  refreshData_start >>
  refreshData_resume refreshRes historyRes now.

End Handlers.

(** The three totals of the bottom bar:
    [wallets.reduce((sum, w) => sum + w.field, 0)]. *)
Definition totalPortfolio (wallets : list WalletData.t) : float :=
  foldl (λ sum w, sum + WalletData.portfolio_total w)%float 0%float wallets.

Definition totalUsdc (wallets : list WalletData.t) : float :=
  foldl (λ sum w, sum + WalletData.usdc_balance w)%float 0%float wallets.

Definition totalPositions (wallets : list WalletData.t) : float :=
  foldl (λ sum w, sum + WalletData.positions_value w)%float 0%float wallets.

(** [TIME_RANGES], label and length in milliseconds. *)
Definition TIME_RANGES : list (string * number) :=
  [("10m", 10 * 60 * 1000); ("30m", 30 * 60 * 1000); ("1h", 60 * 60 * 1000);
   ("1D", 24 * 60 * 60 * 1000); ("3D", 3 * 24 * 60 * 60 * 1000);
   ("1W", 7 * 24 * 60 * 60 * 1000); ("1M", 30 * 24 * 60 * 60 * 1000)]%Z.

(** [filteredHistory]; [now] is the value of [Date.now()]. *)
Definition filteredHistory (now : number) (history : list HistoryEntry.t)
    (selectedRange : string) : list HistoryEntry.t :=
  match list_find (λ r, r.1 = selectedRange) TIME_RANGES with
  | None => history
  | Some (_, range) =>
      let cutoff := (now - range.2)%Z in
      filter (λ h, cutoff ≤ HistoryEntry.timestamp h)%Z history
  end.

(** A value of a chart row, [string | number]. *)
Inductive Cell :=
| CStr (s : string)
| CNum (n : number).

(** The key [`wallet_${idx + 1}`]. *)
Definition wallet_key (idx : nat) : string := "wallet_" +:+ pretty (idx + 1)%nat.

(** The body of [walletConfigs.forEach((config, idx) => ...)] in [chartData]:
    the value is copied when [h.wallets[config.proxy_address]] is defined. *)
Definition chart_cell (h : HistoryEntry.t) (config : WalletConfig.t) (idx : nat)
    (entry : gmap string Cell) : gmap string Cell :=
  match HistoryEntry.wallets h !! WalletConfig.proxy_address config with
  | Some v => <[wallet_key idx := CNum v]> entry
  | None => entry
  end.

(** [forEach] from index [idx] on. *)
Fixpoint chart_cells (h : HistoryEntry.t) (configs : list WalletConfig.t) (idx : nat)
    (entry : gmap string Cell) : gmap string Cell :=
  match configs with
  | [] => entry
  | config :: rest => chart_cells h rest (S idx) (chart_cell h config idx entry)
  end.

Section Chart.

(** [new Date(t).toLocaleTimeString('zh-CN', { hour: '2-digit', minute: '2-digit' })] *)
Variable toLocaleTimeString : number → string.

(** One row of [chartData]. *)
Definition chartRow (walletConfigs : list WalletConfig.t) (h : HistoryEntry.t) :
    gmap string Cell :=
  chart_cells h walletConfigs 0
    (<["timestamp" := CNum (HistoryEntry.timestamp h)]>
       (<["time" := CStr (toLocaleTimeString (HistoryEntry.timestamp h))]> ∅)).

Definition chartData (filteredHistory : list HistoryEntry.t)
    (walletConfigs : list WalletConfig.t) : list (gmap string Cell) :=
  chartRow walletConfigs <$> filteredHistory.

End Chart.

(** [COLORS] *)
Definition COLORS : list string :=
  ["#60a5fa"; "#4ade80"; "#f472b6"; "#facc15"; "#a78bfa"; "#fb923c"].

(** [COLORS[idx % COLORS.length]], the colour of the wallet configured at
    position [idx]; [None] is [undefined]. *)
Definition color (idx : nat) : option string :=
  COLORS !! (idx `mod` length COLORS)%nat.

(** [wallets.find(w => w.proxy_address === config.proxy_address)] *)
Definition find_wallet (wallets : list WalletData.t) (config : WalletConfig.t) :
    option WalletData.t :=
  snd <$> list_find
            (λ w, WalletData.proxy_address w = WalletConfig.proxy_address config)
            wallets.

(** A card of the wallet list: the configuration it is drawn for, the wallet
    whose three amounts it prints, and the colour of its border. *)
Record Card := mkCard {
  card_config : WalletConfig.t;
  card_wallet : WalletData.t;
  card_color : option string
}.

(** The body of [walletConfigs.map((config, idx) => ...)] in the wallet list:
    [null] when no wallet is found for the configuration. *)
Definition walletCard (wallets : list WalletData.t) (idx : nat) (config : WalletConfig.t) :
    option Card :=
  match find_wallet wallets config with
  | None => None
  | Some wallet =>
      Some {| card_config := config; card_wallet := wallet; card_color := color idx |}
  end.

(** The wallet list of the left column. *)
Definition walletList (wallets : list WalletData.t) (walletConfigs : list WalletConfig.t) :
    list (option Card) :=
  imap (walletCard wallets) walletConfigs.

(** *** The two triggers of [refreshData]

    The button ([onClick={refreshData}], [disabled={loading}]) and the timer
    ([setInterval(refreshData, 10 * 60 * 1000)]).  An invocation runs up to
    its first [await] when it is triggered and resumes when its answers
    arrive; [in_flight] counts the invocations that have started and not yet
    reached the end of their [finally]. *)

Inductive Event :=
| Click
| Tick
| Settle (refreshRes : Fetched RefreshedData)
         (historyRes : Fetched (list HistoryEntry.t)) (now : number).

Record Session := mkSession { world : World; in_flight : nat }.

Definition initialSession : Session := {| world := initialWorld; in_flight := 0 |}.

Section Triggers.

Variable NEXT_PUBLIC_API_URL : option string.

Definition start_refresh (s : Session) : Session :=
  {| world := (refreshData_start NEXT_PUBLIC_API_URL (world s)).2;
     in_flight := S (in_flight s) |}.

(** [None]: the event cannot happen (a click on the disabled button, an
    answer when nothing is awaited). *)
Definition handle (e : Event) (s : Session) : option Session :=
  match e with
  | Click => if loading (state (world s)) then None else Some (start_refresh s)
  | Tick => Some (start_refresh s)
  | Settle refreshRes historyRes now =>
      match in_flight s with
      | O => None
      | S n =>
          Some {| world := (refreshData_resume NEXT_PUBLIC_API_URL
                              refreshRes historyRes now (world s)).2;
                  in_flight := n |}
      end
  end.

Fixpoint run (events : list Event) (s : Session) : option Session :=
  match events with
  | [] => Some s
  | e :: rest => handle e s ≫= run rest
  end.

End Triggers.

End Page.

(** ** [backend/utils/cashout_service.py], as the architecture document
    quotes it *)

Module CashoutService.

Inductive PyExn := TypeError | ValueError | JSONDecodeError | RequestException.

Inductive PyResult (A : Type) :=
| Return (a : A)
| Raise (e : PyExn).
Arguments Return {A} a.
Arguments Raise {A} e.

(** What [requests.get] meets: no answer within the timeout or no connection
    (it raises), or an answer with its status and the value of [resp.json()]
    ([None] when the body is not JSON). *)
Inductive HttpOutcome :=
| NoAnswer
| Answer (status_code : Z) (body : option json).

Section Float.

(** Python's [float] on a [str]: the number it denotes, or [None] when
    [float] raises [ValueError]. *)
Variable float_of_str : string → option number.

(** [float(x)] for [x] the result of [d.get("value")]: [None] is an absent
    key. *)
Definition float (x : option json) : PyResult number :=
  match x with
  | None | Some JNull => Raise TypeError
  | Some (JBool b) => Return (if b then USDC_UNIT else 0%Z)
  | Some (JNum n) => Return n
  | Some (JStr s) =>
      match float_of_str s with
      | Some n => Return n
      | None => Raise ValueError
      end
  | Some (JArr _) | Some (JObj _) => Raise TypeError
  end.

Definition return_float (x : option json) : PyResult (option number) :=
  match float x with
  | Return n => Return (Some n)
  | Raise e => Raise e
  end.

(** The loop [for item in data] followed by the final [return None]. *)
Fixpoint for_item_in (data : list json) : PyResult (option number) :=
  match data with
  | [] => Return None
  | JObj item :: rest =>
      if has_key "value" item then return_float (member "value" item)
      else for_item_in rest
  | _ :: rest => for_item_in rest
  end.

Definition get_positions_value (resp : HttpOutcome) : PyResult (option number) :=
  match resp with
  | NoAnswer => Raise RequestException
  | Answer status_code body =>
      if decide (status_code ≠ 200%Z) then Return None
      else
        match body with
        | None => Raise JSONDecodeError
        | Some (JArr data) => for_item_in data
        | Some (JObj data) => return_float (member "value" data)
        | Some _ => Return None
        end
  end.

End Float.

End CashoutService.

(** ** [frontend-react/src/context/WalletsContext.jsx], the history snippet *)

Module WalletsContext.

Record BalanceEntry := mkBalanceEntry {
  time : string;
  timestamp : number;
  total : number;
  wallets : gmap string number
}.

(** [l.slice(-n)]: the last [n] elements, all of [l] when it is shorter. *)
Definition slice_last {A} (n : nat) (l : list A) : list A :=
  drop (length l - n) l.

(** The updater given to [setBalanceHistory]:
    [[...prev.slice(-499), newEntry]]. *)
Definition setBalanceHistory (prev : list BalanceEntry) (newEntry : BalanceEntry) :
    list BalanceEntry :=
  slice_last 499 prev ++ [newEntry].

(** The history after a series of refreshes, starting from [useState([])]. *)
Definition balanceHistory (entries : list BalanceEntry) : list BalanceEntry :=
  foldl setBalanceHistory [] entries.

End WalletsContext.

(** ** The refresh/cache core

    The coordinator, the cache and the gateway run in [portfolio-backend],
    whose code is not among the sources; the page above is their only
    caller.  They are written here from the design document. *)

Module Core.

(** Modelled from the spec: the [FetchError] variants of the providers
    (section 4.1); the providers are not in the sources. *)
Inductive FetchError := Timeout | Unreachable | BadResponse.

(** Modelled from the spec: [Result<decimal, FetchError>], what
    [BalanceProvider.fetch] and [PositionProvider.fetch] return (section 4.1). *)
Inductive FetchResult :=
| Ok (value : number)
| Err (error : FetchError).

Module BalanceSample.
(** Modelled from the spec: the [BalanceSample] of section 3 with its
    [stale] flag; the backend type is not in the sources. *)
Record t := mk {
  proxyAddress : string;
  usdcBalance : number;
  positionsValue : number;
  portfolioTotal : number;
  observedAt : number;
  stale : bool
}.
End BalanceSample.

Module Wallet.
(** Modelled from the spec: a [WalletConfig] of section 3 without its [id],
    which is the key of the registry. *)
Record t := mk {
  name : string;
  proxyAddress : string;
  enabled : bool
}.
End Wallet.

(** Modelled from the spec: the construction of a sample by the coordinator,
    which is not in the sources; [portfolioTotal] is recomputed from the two
    legs (section 4.2, step 4). *)
Definition sample (address : string) (usdc positions now : number) (stale : bool) :
    BalanceSample.t :=
  {| BalanceSample.proxyAddress := address;
     BalanceSample.usdcBalance := usdc;
     BalanceSample.positionsValue := positions;
     BalanceSample.portfolioTotal := (usdc + positions)%Z;
     BalanceSample.observedAt := now;
     BalanceSample.stale := stale |}.

(** Modelled from the spec: step 4 of [RefreshCoordinator.refresh], the
    merge of the two fetch results of one wallet; the coordinator is not in
    the sources.  Both succeed: a fresh sample.  One fails: the previous
    cached value stands in for the failed leg and the sample is stale.  Both
    fail and nothing is cached: no sample.  The document is silent on a
    failed leg that has no cached value to reuse, and on two failed legs with
    a cached sample; here a failed leg is always replaced by its cached
    value, and without a cached value there is no sample. *)
Definition merge (previous : option BalanceSample.t) (address : string)
    (balance positions : FetchResult) (now : number) : option BalanceSample.t :=
  match balance, positions with
  | Ok b, Ok p => Some (sample address b p now false)
  | Ok b, Err _ =>
      (λ prev, sample address b (BalanceSample.positionsValue prev) now true) <$> previous
  | Err _, Ok p =>
      (λ prev, sample address (BalanceSample.usdcBalance prev) p now true) <$> previous
  | Err _, Err _ =>
      (λ prev, sample address (BalanceSample.usdcBalance prev)
                 (BalanceSample.positionsValue prev) now true) <$> previous
  end.

(** Modelled from the spec: the two providers, which are not in the sources,
    seen from one cycle: what each answers per proxy address, and the time of
    the cycle. *)
Record Cycle := mkCycle {
  balanceOf : string → FetchResult;
  positionsOf : string → FetchResult;
  startedAt : number
}.

(** Modelled from the spec: the process-wide state of the backend (section
    9), which is not in the sources: the [PortfolioCache] keyed by wallet id
    and the time of the last commit. *)
Record Engine := mkEngine {
  cache : gmap string BalanceSample.t;
  lastRefreshTime : option number
}.

(** Modelled from the spec: the state of the backend at startup, an empty
    cache (section 9). *)
Definition startup : Engine := {| cache := ∅; lastRefreshTime := None |}.

(** Modelled from the spec: steps 2 to 4 of [RefreshCoordinator.refresh],
    the samples that one cycle produces, one merge per enabled wallet of the
    registry. *)
Definition produced (registry : gmap string Wallet.t) (c : Cycle)
    (cached : gmap string BalanceSample.t) : gmap string BalanceSample.t :=
  map_imap
    (λ id w,
       if Wallet.enabled w
       then merge (cached !! id) (Wallet.proxyAddress w)
              (balanceOf c (Wallet.proxyAddress w))
              (positionsOf c (Wallet.proxyAddress w)) (startedAt c)
       else None)
    registry.

(** Modelled from the spec: step 5, [PortfolioCache.commit]: the entries of
    all wallets that produced a sample are replaced at once. *)
Definition commit (samples cached : gmap string BalanceSample.t) :
    gmap string BalanceSample.t :=
  samples ∪ cached.

(** Modelled from the spec: [RefreshCoordinator.refresh], one cycle on the
    engine: the produced samples are committed and the time is recorded. *)
Definition refresh (registry : gmap string Wallet.t) (e : Engine) (c : Cycle) : Engine :=
  {| cache := commit (produced registry c (cache e)) (cache e);
     lastRefreshTime := Some (startedAt c) |}.

(** Modelled from the spec: the backend after a series of refresh cycles
    since startup, in the order in which they complete (section 5). *)
Definition after (registry : gmap string Wallet.t) (cycles : list Cycle) : Engine :=
  foldl (refresh registry) startup cycles.

(** Modelled from the spec: [PortfolioCache.getAll]. *)
Definition getAll (cached : gmap string BalanceSample.t) : list BalanceSample.t :=
  (map_to_list cached).*2.

(** Modelled from the spec: the gateway, which is not in the sources,
    writing a decimal amount as a JSON number, and the page reading it: the
    amount in dollars as a binary64 number, a division of two rounded
    numbers. *)
Definition js_number (d : number) : float :=
  (SF2Prim (binary_normalize prec emax d 0 false) / 1000000)%float.

(** Modelled from the spec: the gateway, which is not in the sources,
    serialising a sample for the page ([WalletData] of [page.tsx]). *)
Definition to_wallet_data (s : BalanceSample.t) : WalletData.t :=
  {| WalletData.proxy_address := BalanceSample.proxyAddress s;
     WalletData.usdc_balance := js_number (BalanceSample.usdcBalance s);
     WalletData.positions_value := js_number (BalanceSample.positionsValue s);
     WalletData.portfolio_total := js_number (BalanceSample.portfolioTotal s);
     WalletData.last_updated := BalanceSample.observedAt s |}.

(** Modelled from the spec: the handler of [GET /api/portfolio/cached]
    (section 6), the last committed snapshot; it reads the cache only, so it
    always answers.  Of its answer the member [wallets] is kept, the one the
    page reads. *)
Definition get_portfolio_cached (e : Engine) : Page.Fetched Page.CachedData :=
  Page.Response true
    (Some {| Page.cached_wallets := Some (to_wallet_data <$> getAll (cache e)) |}).

(** Modelled from the spec: the enabled wallets of the registry, the ones a
    cycle fetches (section 4.2, step 2). *)
Definition attempted (registry : gmap string Wallet.t) : gmap string Wallet.t :=
  map_imap (λ _ w, if Wallet.enabled w then Some w else None) registry.

(** Modelled from the spec: the enabled wallets for which a cycle produces no
    sample (section 4.2, step 4, third case). *)
Definition unsampled (registry : gmap string Wallet.t) (c : Cycle)
    (cached : gmap string BalanceSample.t) : gmap string Wallet.t :=
  map_imap
    (λ id w,
       if Wallet.enabled w
       then match merge (cached !! id) (Wallet.proxyAddress w)
                    (balanceOf c (Wallet.proxyAddress w))
                    (positionsOf c (Wallet.proxyAddress w)) (startedAt c) with
            | Some _ => None
            | None => Some w
            end
       else None)
    registry.

(** Modelled from the spec: the [RefreshOutcome] of section 4.2, step 6. *)
Record RefreshOutcome := mkRefreshOutcome {
  succeeded : nat;
  failed : nat;
  timestamp : number
}.

(** Modelled from the spec: what [RefreshCoordinator.refresh] reports.  The
    document leaves open whether a stale sample counts as a failure; here a
    wallet counts as succeeded when the cycle commits a sample for it, fresh
    or stale, and as failed when it is left out of the commit. *)
Definition outcome (registry : gmap string Wallet.t) (e : Engine) (c : Cycle) :
    RefreshOutcome :=
  {| succeeded := size (produced registry c (cache e));
     failed := size (unsampled registry c (cache e));
     timestamp := startedAt c |}.

(** Modelled from the spec: the handler of [POST /api/portfolio/refresh]
    (section 6), which runs one cycle and answers its outcome. *)
Definition post_portfolio_refresh (registry : gmap string Wallet.t) (e : Engine)
    (c : Cycle) : Engine * RefreshOutcome :=
  (refresh registry e c, outcome registry e c).







(** Modelled from the spec: the in-flight guard of the coordinator (section
    4.2, step 1, and the design notes: a flag around the cycle), with the
    policy of rejecting a caller while a cycle is in flight.  [executing]
    lists the cycles that have started and not completed, [started] counts
    the cycles started so far and names the next one, and [calls] records,
    oldest first, the cycle of every provider call made. *)
Record Guard := mkGuard {
  refreshing : bool;
  executing : list nat;
  started : nat;
  calls : list nat
}.

(** Modelled from the spec: the coordinator at startup. *)
Definition idle : Guard :=
  {| refreshing := false; executing := []; started := 0; calls := [] |}.

(** Modelled from the spec: what happens at the coordinator: a caller
    invokes [refresh()], a cycle calls a provider, a cycle completes. *)
Inductive Moment :=
| Refresh_called
| Provider_called (cycle : nat)
| Cycle_completed (cycle : nat).

(** Modelled from the spec: one moment at the coordinator.  A caller that
    finds the flag up is rejected with [AlreadyRefreshing] and nothing
    starts; otherwise the flag goes up and a new cycle executes.  Only an
    executing cycle calls providers or completes ([None] otherwise);
    completion lowers the flag. *)
Definition moment (m : Moment) (g : Guard) : option Guard :=
  match m with
  | Refresh_called =>
      if refreshing g then Some g
      else Some {| refreshing := true; executing := started g :: executing g;
                   started := S (started g); calls := calls g |}
  | Provider_called c =>
      if bool_decide (c ∈ executing g)
      then Some {| refreshing := refreshing g; executing := executing g;
                   started := started g; calls := calls g ++ [c] |}
      else None
  | Cycle_completed c =>
      if bool_decide (c ∈ executing g)
      then Some {| refreshing := false; executing := filter (λ c', c' ≠ c) (executing g);
                   started := started g; calls := calls g |}
      else None
  end.

(** Modelled from the spec: a series of moments from a state of the
    coordinator. *)
Fixpoint moments (ms : list Moment) (g : Guard) : option Guard :=
  match ms with
  | [] => Some g
  | m :: rest => moment m g ≫= moments rest
  end.

End Core.

(** ** The properties of the design document, as predicates *)

(** A sample of the page whose total is the sum of its two components:
    [w.portfolio_total === w.usdc_balance + w.positions_value]. *)
Definition consistent (w : WalletData.t) : Prop :=
  PrimFloat.eqb (WalletData.portfolio_total w)
    (WalletData.usdc_balance w + WalletData.positions_value w)%float = true.

(** The cycles of the recorded provider calls never go down. *)
Definition ascending (calls : list nat) : Prop :=
  ∀ i j a b, i ≤ j → calls !! i = Some a → calls !! j = Some b → a ≤ b.

(** The coordinator is idle, or its flag is up and the cycle started last is
    the only one executing; every recorded call is of a cycle already
    started, and the calls are recorded cycle after cycle. *)
Definition exclusive (g : Core.Guard) : Prop :=
  (Core.refreshing g = false ∧ Core.executing g = [] ∨
   Core.refreshing g = true ∧
   ∃ c, Core.executing g = [c] ∧ Core.started g = S c) ∧
  Forall (λ c, c < Core.started g) (Core.calls g) ∧
  ascending (Core.calls g).

(** The provider calls of two cycles never interleave: between two calls of
    one cycle there is no call of another. *)
Definition cycles_apart (calls : list nat) : Prop :=
  ∀ i j k c c', i < j → j < k →
    calls !! i = Some c → calls !! j = Some c' → calls !! k = Some c → c' = c.

(** The same for a sample of the cache. *)
Definition sample_consistent (s : Core.BalanceSample.t) : Prop :=
  Core.BalanceSample.portfolioTotal s
  = (Core.BalanceSample.usdcBalance s + Core.BalanceSample.positionsValue s)%Z.

(** A sample of the page that is the serialisation of a sample of the cache
    whose total is the sum of its two components. *)
Definition rendered (w : WalletData.t) : Prop :=
  ∃ s, sample_consistent s ∧ w = Core.to_wallet_data s.

(** The number [0 + x] of binary64, for [x] as [Prim2SF] gives it: a zero of
    either sign gives the positive zero, any other number itself. *)
Definition zero_plus (x : spec_float) : spec_float :=
  match x with
  | S754_zero _ => S754_zero false
  | _ => x
  end.

(** Every request that the page has sent to the refresh endpoint is a POST. *)
Definition refresh_by_POST (NEXT_PUBLIC_API_URL : option string) (w : Page.World) : Prop :=
  Forall (λ r, Page.url r = Page.refresh_url NEXT_PUBLIC_API_URL → Page.method r = Page.POST)
    (Page.sent w).

(** No event of the series is a tick of the timer. *)
Definition button_only (events : list Page.Event) : Prop :=
  Forall (λ e, e ≠ Page.Tick) events.

(** The flag is up exactly when one invocation is in flight, and there is at
    most one. *)
Definition guarded (s : Page.Session) : Prop :=
  Page.in_flight s ≤ 1 ∧
  (Page.loading (Page.state (Page.world s)) = true ↔ Page.in_flight s = 1).

(** An item of the answer that is an object with a [value] member. *)
Definition valued (j : json) : bool :=
  match j with
  | JObj item => has_key "value" item
  | _ => false
  end.

(** A JSON value that is neither a list nor an object. *)
Definition scalar (j : json) : bool :=
  match j with
  | JArr _ | JObj _ => false
  | _ => true
  end.

(** The provider gives a result, success or failure, and does not raise. *)
Definition returns {A} (r : CashoutService.PyResult A) : Prop :=
  ∃ a, r = CashoutService.Return a.

(** The wallets that the cards of the wallet list print, in order. *)
Definition printed (cards : list (option Page.Card)) : list WalletData.t :=
  omap (fmap Page.card_wallet) cards.

(** The update time is the latest [last_updated] of the list. *)
Definition latest_of (m : number) (l : list WalletData.t) : Prop :=
  Forall (λ w, WalletData.last_updated w ≤ m)%Z l ∧
  Exists (λ w, WalletData.last_updated w = m) l.

(** ** The totals of the bottom bar *)

Set Warnings "-inexact-float".

Lemma reduce_fmap (f : WalletData.t → float) (wallets : list WalletData.t) :
  foldl (λ sum w, sum + f w)%float 0%float wallets
  = foldl PrimFloat.add 0%float (f <$> wallets).
Proof. symmetry. apply foldl_fmap. Qed.

Lemma Prim2SF_zero_plus (x : float) : Prim2SF (0 + x) = zero_plus (Prim2SF x).
Proof.
  rewrite add_spec. change (Prim2SF 0) with (S754_zero false).
  by destruct (Prim2SF x) as [[]|[]| |].
Qed.

Lemma SFeqb_zero_plus_l (p x : spec_float) : SFeqb (zero_plus p) x = SFeqb p x.
Proof. by destruct p. Qed.

Lemma SFeqb_zero_plus_r (p u v : spec_float) :
  SFeqb p (SF64add (zero_plus u) (zero_plus v)) = SFeqb p (SF64add u v).
Proof.
  destruct u as [[]|[]| |su mu eu], v as [[]|[]| |sv mv ev]; try reflexivity;
    by destruct p.
Qed.

(** For one sample the bottom bar agrees with the sample: [0 + p] is
    [(0 + u) + (0 + v)] when [p] is [u + v]. *)
Lemma single_sample_totals (p u v : float) :
  PrimFloat.eqb p (u + v) = true →
  PrimFloat.eqb (0 + p) ((0 + u) + (0 + v)) = true.
Proof.
  rewrite !FloatAxioms.eqb_spec, (add_spec u v), (add_spec (0 + u) (0 + v)).
  rewrite !Prim2SF_zero_plus.
  by rewrite SFeqb_zero_plus_l, SFeqb_zero_plus_r.
Qed.

(** C10, as the page has it. Each total of the bottom bar is the sum of its
    field over the list of wallets held by the page, added from 0 from left
    to right in binary64: it depends on the values of that field only, and a
    sample added at the end of the list adds its field to the total. For a
    list of one sample with [portfolio_total === usdc_balance +
    positions_value], the total portfolio is the total USDC plus the total
    positions. *)
Theorem totals_reduce_fields (wallets : list WalletData.t) (w : WalletData.t) :
  Page.totalPortfolio wallets
  = foldl PrimFloat.add 0%float (WalletData.portfolio_total <$> wallets) ∧
  Page.totalUsdc wallets
  = foldl PrimFloat.add 0%float (WalletData.usdc_balance <$> wallets) ∧
  Page.totalPositions wallets
  = foldl PrimFloat.add 0%float (WalletData.positions_value <$> wallets) ∧
  Page.totalPortfolio (wallets ++ [w])
  = (Page.totalPortfolio wallets + WalletData.portfolio_total w)%float ∧
  Page.totalUsdc (wallets ++ [w])
  = (Page.totalUsdc wallets + WalletData.usdc_balance w)%float ∧
  Page.totalPositions (wallets ++ [w])
  = (Page.totalPositions wallets + WalletData.positions_value w)%float ∧
  (consistent w →
   PrimFloat.eqb (Page.totalPortfolio [w]) (Page.totalUsdc [w] + Page.totalPositions [w])
   = true).
Proof.
  unfold Page.totalPortfolio, Page.totalUsdc, Page.totalPositions.
  split_and!.
  - apply reduce_fmap.
  - apply reduce_fmap.
  - apply reduce_fmap.
  - by rewrite foldl_snoc.
  - by rewrite foldl_snoc.
  - by rewrite foldl_snoc.
  - intros Hw. simpl. by apply single_sample_totals.
Qed.

Lemma totals_reduce_fields_witness :
  let w := WalletData.mk "0xA" 100.5 50.25 150.75 1 in
  consistent w ∧
  PrimFloat.eqb (Page.totalPortfolio [w]) (Page.totalUsdc [w] + Page.totalPositions [w])
  = true.
Proof.
  intros w. assert (consistent w) as Hw by reflexivity.
  split; [exact Hw|].
  exact (proj2 (proj2 (proj2 (proj2 (proj2 (proj2 (totals_reduce_fields [] w)))))) Hw).
Defined.

(** C10, as it is stated, fails on the page: for two samples that each have
    [portfolio_total === usdc_balance + positions_value], the total
    portfolio, 0.7, is not the total USDC plus the total positions,
    0.7000000000000001. *)
Lemma totals_not_additive :
  let ws := [WalletData.mk "0xA" 0.1 0.1 0.2 1; WalletData.mk "0xB" 0.2 0.3 0.5 2] in
  Forall consistent ws ∧
  PrimFloat.eqb (Page.totalPortfolio ws) (Page.totalUsdc ws + Page.totalPositions ws)
  = false.
Proof.
  intros ws. split; [|vm_compute; reflexivity].
  repeat constructor; vm_compute; reflexivity.
Qed.

(** ** The bounded history *)

Section SliceLast.

Context {A : Type}.
Implicit Types l : list A.

Lemma length_slice_last n l :
  length (WalletsContext.slice_last n l) = Nat.min (length l) n.
Proof. unfold WalletsContext.slice_last. rewrite length_drop. lia. Qed.

Lemma slice_last_short n l :
  length l ≤ n → WalletsContext.slice_last n l = l.
Proof.
  intros H. unfold WalletsContext.slice_last.
  replace (length l - n) with 0 by lia. done.
Qed.

Lemma slice_last_slice_last n m l :
  n ≤ m →
  WalletsContext.slice_last n (WalletsContext.slice_last m l)
  = WalletsContext.slice_last n l.
Proof.
  intros H. unfold WalletsContext.slice_last.
  rewrite length_drop, drop_drop. f_equal. lia.
Qed.

Lemma slice_last_snoc n l x :
  WalletsContext.slice_last (S n) (l ++ [x]) = WalletsContext.slice_last n l ++ [x].
Proof.
  unfold WalletsContext.slice_last. rewrite length_app. simpl.
  replace (length l + 1 - S n) with (length l - n) by lia.
  rewrite drop_app_le by lia. done.
Qed.

Lemma slice_last_cons n x l :
  length l = n → WalletsContext.slice_last n (x :: l) = l.
Proof.
  intros <-. unfold WalletsContext.slice_last. simpl.
  replace (S (length l) - length l) with 1 by lia. done.
Qed.

End SliceLast.

Lemma balanceHistory_slice (entries : list WalletsContext.BalanceEntry) :
  WalletsContext.balanceHistory entries = WalletsContext.slice_last 500 entries.
Proof.
  unfold WalletsContext.balanceHistory.
  induction entries as [|x l IH] using rev_ind; [done|].
  rewrite foldl_snoc, IH. unfold WalletsContext.setBalanceHistory.
  rewrite slice_last_slice_last by lia.
  by rewrite (slice_last_snoc 499).
Qed.

(** C3. With the capacity 500 of the snippet: the history never holds more
    than 500 entries, whatever it held before an append and after any series
    of appends; it is the last 500 entries appended; and after 501 appends it
    holds the 500 later ones, so the earliest entry is gone (when no later
    entry is equal to it). *)
Theorem history_bounded_fifo
    (prev entries : list WalletsContext.BalanceEntry)
    (newEntry first : WalletsContext.BalanceEntry) :
  length (WalletsContext.setBalanceHistory prev newEntry) ≤ 500 ∧
  length (WalletsContext.balanceHistory entries) ≤ 500 ∧
  WalletsContext.balanceHistory entries = WalletsContext.slice_last 500 entries ∧
  (length entries = 500 →
   WalletsContext.balanceHistory (first :: entries) = entries ∧
   (first ∉ entries → first ∉ WalletsContext.balanceHistory (first :: entries))).
Proof.
  split_and!.
  - unfold WalletsContext.setBalanceHistory.
    rewrite length_app, length_slice_last. simpl. lia.
  - rewrite balanceHistory_slice, length_slice_last. lia.
  - apply balanceHistory_slice.
  - intros Hlen. rewrite balanceHistory_slice, slice_last_cons by done. done.
Qed.

Lemma history_bounded_fifo_witness :
  let first := WalletsContext.mkBalanceEntry "12:00" 0 0 ∅ in
  let entries :=
    (λ i, WalletsContext.mkBalanceEntry "12:00" (Z.of_nat i) 0 ∅) <$> seq 1 500 in
  length entries = 500 ∧
  (first ∉ entries) ∧
  WalletsContext.balanceHistory (first :: entries) = entries ∧
  (first ∉ WalletsContext.balanceHistory (first :: entries)).
Proof.
  intros first entries.
  assert (length entries = 500) as Hlen.
  { unfold entries. rewrite length_fmap. apply length_seq. }
  assert (first ∉ entries) as Hfirst.
  { unfold entries. intros (i & Heq & Hi)%list_elem_of_fmap.
    apply elem_of_seq in Hi. unfold first in Heq.
    injection Heq as Heq. lia. }
  destruct (proj2 (proj2 (proj2 (history_bounded_fifo [] entries first first))) Hlen)
    as [Heq Habsent].
  split_and!; [exact Hlen | exact Hfirst | exact Heq | exact (Habsent Hfirst)].
Defined.

(** ** The chart rows *)

Lemma wallet_key_inj (i j : nat) : Page.wallet_key i = Page.wallet_key j → i = j.
Proof.
  unfold Page.wallet_key. intros H.
  apply (inj (String.append "wallet_")) in H.
  apply (inj pretty) in H. lia.
Qed.

Section ChartCells.

Variable h : HistoryEntry.t.

(** A cell written by [forEach] from [start] on has the key of an index that
    is not below [start]. *)
Lemma chart_cells_other (configs : list WalletConfig.t) (start : nat)
    (entry : gmap string Page.Cell) (k : string) :
  (∀ j, start ≤ j → k ≠ Page.wallet_key j) →
  Page.chart_cells h configs start entry !! k = entry !! k.
Proof.
  revert start entry. induction configs as [|c rest IH]; intros start entry Hk; [done|].
  simpl. rewrite IH by (intros j Hj; apply Hk; lia).
  unfold Page.chart_cell. destruct (HistoryEntry.wallets h !! _); [|done].
  apply lookup_insert_ne. intros Heq. by apply (Hk start).
Qed.

Lemma chart_cells_lookup (configs : list WalletConfig.t) (start idx : nat)
    (entry : gmap string Page.Cell) (config : WalletConfig.t) :
  configs !! idx = Some config →
  (∀ j, start ≤ j → entry !! Page.wallet_key j = None) →
  Page.chart_cells h configs start entry !! Page.wallet_key (start + idx)
  = Page.CNum <$> (HistoryEntry.wallets h !! WalletConfig.proxy_address config).
Proof.
  revert start idx entry.
  induction configs as [|c rest IH]; intros start idx entry Hidx Hentry; [done|].
  destruct idx as [|idx]; simpl in *.
  - injection Hidx as ->. rewrite Nat.add_0_r.
    rewrite chart_cells_other
      by (intros j Hj Heq; apply wallet_key_inj in Heq; lia).
    unfold Page.chart_cell.
    destruct (HistoryEntry.wallets h !! _) as [v|]; simpl.
    + apply lookup_insert_eq.
    + apply Hentry. lia.
  - replace (start + S idx) with (S start + idx) by lia.
    apply IH; [done|]. intros j Hj. unfold Page.chart_cell.
    destruct (HistoryEntry.wallets h !! WalletConfig.proxy_address c) as [v|];
      [|apply Hentry; lia].
    rewrite lookup_insert_ne; [apply Hentry; lia|].
    intros Heq. apply wallet_key_inj in Heq. lia.
Qed.

End ChartCells.

(** C7, as the page has it. The per-wallet mapping of a history entry
    ([wallets]) is read by proxy address: in the chart row of an entry, the
    series of the wallet configured at position [idx] holds
    [h.wallets[config.proxy_address]], and the row has no such series when
    the mapping has no value under that address. *)
Theorem chart_series_by_proxy_address
    (toLocaleTimeString : number → string)
    (walletConfigs : list WalletConfig.t) (h : HistoryEntry.t)
    (idx : nat) (config : WalletConfig.t) :
  walletConfigs !! idx = Some config →
  Page.chartRow toLocaleTimeString walletConfigs h !! Page.wallet_key idx
  = Page.CNum <$> (HistoryEntry.wallets h !! WalletConfig.proxy_address config).
Proof.
  intros Hidx. unfold Page.chartRow.
  apply (chart_cells_lookup h walletConfigs 0 idx _ config Hidx).
  intros j _. unfold Page.wallet_key.
  rewrite !lookup_insert_ne by done. done.
Qed.

Lemma chart_series_by_proxy_address_witness :
  let config := WalletConfig.mk "1" "1-Sports" "0xA" in
  let h := HistoryEntry.mk 1000 1500 {["0xA" := 1500%Z]} in
  [config] !! 0 = Some config ∧
  Page.chartRow (λ _, "12:00") [config] h !! Page.wallet_key 0
  = Some (Page.CNum 1500).
Proof.
  intros config h. split; [reflexivity|].
  exact (chart_series_by_proxy_address (λ _, "12:00") [config] h 0 config eq_refl).
Defined.

(** C7, as the design document has it (a mapping keyed by wallet id), fails
    on the page: for the entry that holds 1500 under the address of wallet
    "1", the series of that wallet is 1500, which is not what the mapping
    holds under the wallet id. *)
Lemma chart_series_not_by_wallet_id :
  let config := WalletConfig.mk "1" "1-Sports" "0xA" in
  let h := HistoryEntry.mk 1000 1500 {["0xA" := 1500%Z]} in
  Page.chartRow (λ _, "12:00") [config] h !! Page.wallet_key 0
  ≠ Page.CNum <$> (HistoryEntry.wallets h !! WalletConfig.wallet_id config).
Proof. intros config h. vm_compute. discriminate. Qed.

(** ** The refresh of the page *)

Section Refresh.

Variable NEXT_PUBLIC_API_URL : option string.

Lemma start_sends (w : Page.World) :
  Page.sent (Page.refreshData_start NEXT_PUBLIC_API_URL w).2
  = Page.sent w ++ [Page.mkRequest Page.GET (Page.refresh_url NEXT_PUBLIC_API_URL)].
Proof. reflexivity. Qed.

Lemma start_raises_loading (w : Page.World) :
  Page.loading (Page.state (Page.refreshData_start NEXT_PUBLIC_API_URL w).2) = true.
Proof. reflexivity. Qed.

Lemma resume_sends (refreshRes : Page.Fetched Page.RefreshedData)
    (historyRes : Page.Fetched (list HistoryEntry.t)) (now : number) (w : Page.World) :
  ∃ more,
    Page.sent (Page.refreshData_resume NEXT_PUBLIC_API_URL refreshRes historyRes now w).2
    = Page.sent w ++ more ∧
    Forall (λ r, Page.method r = Page.GET) more.
Proof.
  destruct refreshRes as [|[] [data|]];
    try (exists []; split; [symmetry; apply app_nil_r | constructor]).
  exists [Page.fetch_request (Page.history_url NEXT_PUBLIC_API_URL)].
  split; [|by repeat constructor].
  by destruct historyRes as [|[] [hist|]].
Qed.

(** The [finally] of [refreshData] lowers the flag, whatever was answered. *)
Lemma resume_lowers_loading (refreshRes : Page.Fetched Page.RefreshedData)
    (historyRes : Page.Fetched (list HistoryEntry.t)) (now : number) (w : Page.World) :
  Page.loading
    (Page.state (Page.refreshData_resume NEXT_PUBLIC_API_URL refreshRes historyRes now w).2)
  = false.
Proof.
  destruct refreshRes as [|[] [data|]]; try reflexivity.
  by destruct historyRes as [|[] [hist|]].
Qed.

End Refresh.

(** C6, as the page has it. Both triggers of a refresh, the button (when it
    is enabled) and the timer, start [refreshData], whose first action sends
    a GET request ([fetch] without a method) to [/api/portfolio/refresh];
    every request that a run of [refreshData] sends is a GET. *)
Theorem refresh_trigger_is_GET (NEXT_PUBLIC_API_URL : option string)
    (s : Page.Session) (refreshRes : Page.Fetched Page.RefreshedData)
    (historyRes : Page.Fetched (list HistoryEntry.t)) (now : number) (w : Page.World) :
  Page.handle NEXT_PUBLIC_API_URL Page.Tick s
  = Some (Page.start_refresh NEXT_PUBLIC_API_URL s) ∧
  Page.handle NEXT_PUBLIC_API_URL Page.Click s
  = (if Page.loading (Page.state (Page.world s)) then None
     else Some (Page.start_refresh NEXT_PUBLIC_API_URL s)) ∧
  Page.sent (Page.world (Page.start_refresh NEXT_PUBLIC_API_URL s))
  = Page.sent (Page.world s)
    ++ [Page.mkRequest Page.GET (Page.refresh_url NEXT_PUBLIC_API_URL)] ∧
  Page.refresh_url NEXT_PUBLIC_API_URL
  = Page.API_BASE NEXT_PUBLIC_API_URL +:+ "/api/portfolio/refresh" ∧
  ∃ more,
    Page.sent (Page.refreshData NEXT_PUBLIC_API_URL refreshRes historyRes now w).2
    = Page.sent w
      ++ Page.mkRequest Page.GET (Page.refresh_url NEXT_PUBLIC_API_URL) :: more ∧
    Forall (λ r, Page.method r = Page.GET) more.
Proof.
  split_and!; try reflexivity.
  destruct (resume_sends NEXT_PUBLIC_API_URL refreshRes historyRes now
              (Page.refreshData_start NEXT_PUBLIC_API_URL w).2) as (more & Hsent & HGET).
  exists more. split; [|done].
  change ((Page.refreshData NEXT_PUBLIC_API_URL refreshRes historyRes now w).2)
    with ((Page.refreshData_resume NEXT_PUBLIC_API_URL refreshRes historyRes now
             (Page.refreshData_start NEXT_PUBLIC_API_URL w).2).2).
  rewrite Hsent, start_sends, <- app_assoc. done.
Qed.

(** C6, as the design document has it (every client trigger goes through
    the POST endpoint), fails on the page: the request that a refresh sends
    to the refresh endpoint is not a POST. *)
Lemma refresh_trigger_not_POST :
  ¬ refresh_by_POST None
      (Page.refreshData None Page.Rejected Page.Rejected 0 Page.initialWorld).2.
Proof.
  unfold refresh_by_POST. intros H.
  apply Forall_inv in H. specialize (H eq_refl). discriminate H.
Qed.

(** ** One refresh at a time *)

Section AtMostOne.

Variable NEXT_PUBLIC_API_URL : option string.

Lemma guarded_step (e : Page.Event) (s s' : Page.Session) :
  e ≠ Page.Tick → guarded s → Page.handle NEXT_PUBLIC_API_URL e s = Some s' → guarded s'.
Proof.
  intros He [Hle Hflag] Hstep. destruct e as [| |refreshRes historyRes now]; [|done|].
  - simpl in Hstep.
    destruct (Page.loading (Page.state (Page.world s))) eqn:Hloading; [done|].
    injection Hstep as <-.
    assert (Page.in_flight s = 0) as Hzero.
    { destruct (decide (Page.in_flight s = 1)) as [Hone|]; [|lia].
      apply Hflag in Hone. congruence. }
    split; simpl; [lia|]. split; [lia|done].
  - simpl in Hstep. destruct (Page.in_flight s) as [|n] eqn:Hn; [done|].
    injection Hstep as <-. split; simpl; [lia|].
    rewrite resume_lowers_loading. split; [done|lia].
Qed.

(** As long as the timer does not fire, the disabled button keeps the
    refreshes of the page apart. *)
Lemma button_only_at_most_one (events : list Page.Event) (s s' : Page.Session) :
  button_only events → guarded s →
  Page.run NEXT_PUBLIC_API_URL events s = Some s' → guarded s'.
Proof.
  intros Hevents. revert s. induction Hevents as [|e events He _ IH]; intros s Hs Hrun.
  - injection Hrun as <-. done.
  - simpl in Hrun.
    destruct (Page.handle NEXT_PUBLIC_API_URL e s) as [s1|] eqn:Hstep; [|done].
    eapply IH; [|exact Hrun]. by eapply guarded_step.
Qed.

End AtMostOne.

(** The timer starts [refreshData] without looking at [loading], so the
    page can call the refresh endpoint twice at a time: after a click on the
    button and a tick of the timer before
    the answer of the first request, two invocations are in flight and two
    requests to the refresh endpoint are out; when the first of them ends,
    its [finally] lowers [loading] while the other is still in flight. *)
Theorem timer_overlaps_refresh (NEXT_PUBLIC_API_URL : option string) :
  ∃ s s',
    Page.run NEXT_PUBLIC_API_URL [Page.Click; Page.Tick] Page.initialSession = Some s ∧
    Page.in_flight s = 2 ∧
    Page.sent (Page.world s)
    = [Page.mkRequest Page.GET (Page.refresh_url NEXT_PUBLIC_API_URL);
       Page.mkRequest Page.GET (Page.refresh_url NEXT_PUBLIC_API_URL)] ∧
    Page.run NEXT_PUBLIC_API_URL
      [Page.Click; Page.Tick; Page.Settle Page.Rejected Page.Rejected 0]
      Page.initialSession = Some s' ∧
    Page.in_flight s' = 1 ∧
    Page.loading (Page.state (Page.world s')) = false.
Proof. do 2 eexists. split_and!; reflexivity. Qed.

(** ** The positions-value provider *)

Lemma member_has_key (k : string) (o : list (string * json)) (v : json) :
  member k o = Some v → has_key k o = true.
Proof.
  intros H. apply bool_decide_eq_true. induction o as [|[k' v'] o IH]; [done|].
  simpl in *. destruct (decide (k = k')) as [->|_].
  - apply list_elem_of_here.
  - apply list_elem_of_further. by apply IH.
Qed.

Section PositionsValue.

Variable float_of_str : string → option number.

Lemma for_item_in_unvalued (data : list json) :
  Forall (λ j, valued j = false) data →
  CashoutService.for_item_in float_of_str data = CashoutService.Return None.
Proof.
  induction 1 as [|j data Hj _ IH]; [done|].
  destruct j as [| | | | |item]; simpl in *; try done.
  by rewrite Hj.
Qed.

Lemma for_item_in_first (before after : list json) (item : list (string * json)) :
  Forall (λ j, valued j = false) before →
  has_key "value" item = true →
  CashoutService.for_item_in float_of_str (before ++ JObj item :: after)
  = CashoutService.return_float float_of_str (member "value" item).
Proof.
  intros Hbefore Hitem. induction Hbefore as [|j before Hj _ IH]; simpl.
  - by rewrite Hitem.
  - destruct j as [| | | | |item']; simpl in *; try done.
    by rewrite Hj.
Qed.

End PositionsValue.

(** C9, as the provider has it. A status other than 200 gives the failure
    result [None]. With status 200: an object whose [value] member is [v],
    and a list whose first object with a [value] member has the value [v],
    give [float(v)]; a list without such an object, and a body that is
    neither a list nor an object, give [None]. [float] of a number is that
    number. Nothing is caught: [float] raises on [null], a body that is not
    JSON raises in [resp.json()], and an unanswered request raises in
    [requests.get]. *)
Theorem positions_value_outcomes (float_of_str : string → option number)
    (status_code : Z) (body : option json) (s : json)
    (d item : list (string * json)) (v : json) (data before after : list json)
    (n : number) :
  (status_code ≠ 200%Z →
   CashoutService.get_positions_value float_of_str (CashoutService.Answer status_code body)
   = CashoutService.Return None) ∧
  (member "value" d = Some v →
   CashoutService.get_positions_value float_of_str
     (CashoutService.Answer 200 (Some (JObj d)))
   = CashoutService.return_float float_of_str (Some v)) ∧
  (Forall (λ j, valued j = false) before → member "value" item = Some v →
   CashoutService.get_positions_value float_of_str
     (CashoutService.Answer 200 (Some (JArr (before ++ JObj item :: after))))
   = CashoutService.return_float float_of_str (Some v)) ∧
  (Forall (λ j, valued j = false) data →
   CashoutService.get_positions_value float_of_str
     (CashoutService.Answer 200 (Some (JArr data)))
   = CashoutService.Return None) ∧
  (scalar s = true →
   CashoutService.get_positions_value float_of_str (CashoutService.Answer 200 (Some s))
   = CashoutService.Return None) ∧
  CashoutService.return_float float_of_str (Some (JNum n))
  = CashoutService.Return (Some n) ∧
  CashoutService.return_float float_of_str (Some JNull)
  = CashoutService.Raise CashoutService.TypeError ∧
  CashoutService.get_positions_value float_of_str (CashoutService.Answer 200 None)
  = CashoutService.Raise CashoutService.JSONDecodeError ∧
  CashoutService.get_positions_value float_of_str CashoutService.NoAnswer
  = CashoutService.Raise CashoutService.RequestException.
Proof.
  split_and!.
  - intros Hstatus. simpl. by rewrite decide_True.
  - intros Hd. simpl. by rewrite Hd.
  - intros Hbefore Hitem. simpl. rewrite <- Hitem.
    apply for_item_in_first; [done|]. by eapply member_has_key.
  - intros Hdata. simpl. by apply for_item_in_unvalued.
  - intros Hs. by destruct s.
  - reflexivity.
  - reflexivity.
  - reflexivity.
  - reflexivity.
Qed.

Lemma positions_value_outcomes_witness :
  let f : string → option number := λ _, None in
  let gpv := CashoutService.get_positions_value f in
  gpv (CashoutService.Answer 500 None) = CashoutService.Return None ∧
  gpv (CashoutService.Answer 200 (Some (JObj [("value", JNum 1234560000)])))
  = CashoutService.Return (Some 1234560000%Z) ∧
  gpv (CashoutService.Answer 200
         (Some (JArr [JNull; JObj [("user", JStr "0xA")];
                      JObj [("value", JNum 1234560000)]; JObj [("value", JNum 1)]])))
  = CashoutService.Return (Some 1234560000%Z) ∧
  gpv (CashoutService.Answer 200 (Some (JArr [JNull; JObj [("user", JStr "0xA")]])))
  = CashoutService.Return None ∧
  gpv (CashoutService.Answer 200 (Some (JStr "busy"))) = CashoutService.Return None.
Proof.
  intros f gpv.
  pose proof (positions_value_outcomes f 500 None (JStr "busy")
                [("value", JNum 1234560000)] [("value", JNum 1234560000)]
                (JNum 1234560000)
                [JNull; JObj [("user", JStr "0xA")]]
                [JNull; JObj [("user", JStr "0xA")]]
                [JObj [("value", JNum 1)]] 1234560000)
    as (Hstatus & Hobject & Hlist & Hnone & Hscalar & _).
  assert (Forall (λ j, valued j = false) [JNull; JObj [("user", JStr "0xA")]]) as Hun
    by (repeat constructor).
  split_and!.
  - apply Hstatus. discriminate.
  - exact (Hobject eq_refl).
  - exact (Hlist Hun eq_refl).
  - exact (Hnone Hun).
  - exact (Hscalar eq_refl).
Defined.

(** C9, as the design document has it (every answer is normalised, no error
    is thrown), fails on the provider: for an answer with status 200 whose
    body is not JSON, [resp.json()] raises and nothing catches it. *)
Lemma positions_value_raises :
  ¬ returns
      (CashoutService.get_positions_value (λ _, None) (CashoutService.Answer 200 None)).
Proof. intros [a Ha]. discriminate Ha. Qed.

(** The object branch has no test [["value" in data]]: an object without a
    [value] member reaches [float(None)]. *)
Lemma object_without_value_raises (float_of_str : string → option number) :
  CashoutService.get_positions_value float_of_str
    (CashoutService.Answer 200 (Some (JObj [])))
  = CashoutService.Raise CashoutService.TypeError.
Proof. reflexivity. Qed.

(** ** The refresh/cache core *)


Lemma produced_lookup (registry : gmap string Core.Wallet.t) (c : Core.Cycle)
    (cached : gmap string Core.BalanceSample.t) (id : string) :
  Core.produced registry c cached !! id
  = w ← registry !! id;
    if Core.Wallet.enabled w
    then Core.merge (cached !! id) (Core.Wallet.proxyAddress w)
           (Core.balanceOf c (Core.Wallet.proxyAddress w))
           (Core.positionsOf c (Core.Wallet.proxyAddress w)) (Core.startedAt c)
    else None.
Proof. unfold Core.produced. by rewrite map_lookup_imap. Qed.











Lemma refresh_lookup (registry : gmap string Core.Wallet.t) (e : Core.Engine)
    (c : Core.Cycle) (id : string) :
  Core.cache (Core.refresh registry e c) !! id
  = union_with (λ new _, Some new)
      (w ← registry !! id;
       if Core.Wallet.enabled w
       then Core.merge (Core.cache e !! id) (Core.Wallet.proxyAddress w)
              (Core.balanceOf c (Core.Wallet.proxyAddress w))
              (Core.positionsOf c (Core.Wallet.proxyAddress w)) (Core.startedAt c)
       else None)
      (Core.cache e !! id).
Proof. simpl. unfold Core.commit. by rewrite lookup_union, produced_lookup. Qed.

(** C4. The merge of the two fetch results of a wallet: when exactly one
    leg fails and a sample is cached, the cached value stands in for the
    failed leg, the total is the sum of the mix and the sample is stale; when
    both legs fail and nothing is cached there is no sample. In a cycle, an
    enabled wallet with one failed leg gets that stale sample committed, and
    a wallet without a cache entry whose two legs fail stays absent from the
    cache. *)
Theorem merge_partial_failure
    (registry : gmap string Core.Wallet.t) (e : Core.Engine) (c : Core.Cycle)
    (id address : string) (w : Core.Wallet.t) (prev : Core.BalanceSample.t)
    (b p now : number) (err err' : Core.FetchError) :
  Core.merge (Some prev) address (Core.Ok b) (Core.Err err) now
  = Some {| Core.BalanceSample.proxyAddress := address;
            Core.BalanceSample.usdcBalance := b;
            Core.BalanceSample.positionsValue := Core.BalanceSample.positionsValue prev;
            Core.BalanceSample.portfolioTotal :=
              (b + Core.BalanceSample.positionsValue prev)%Z;
            Core.BalanceSample.observedAt := now;
            Core.BalanceSample.stale := true |} ∧
  Core.merge (Some prev) address (Core.Err err) (Core.Ok p) now
  = Some {| Core.BalanceSample.proxyAddress := address;
            Core.BalanceSample.usdcBalance := Core.BalanceSample.usdcBalance prev;
            Core.BalanceSample.positionsValue := p;
            Core.BalanceSample.portfolioTotal :=
              (Core.BalanceSample.usdcBalance prev + p)%Z;
            Core.BalanceSample.observedAt := now;
            Core.BalanceSample.stale := true |} ∧
  Core.merge None address (Core.Err err) (Core.Err err') now = None ∧
  (registry !! id = Some w → Core.Wallet.enabled w = true →
   Core.cache e !! id = Some prev →
   (Core.balanceOf c (Core.Wallet.proxyAddress w) = Core.Ok b →
    Core.positionsOf c (Core.Wallet.proxyAddress w) = Core.Err err →
    Core.cache (Core.refresh registry e c) !! id
    = Core.merge (Some prev) (Core.Wallet.proxyAddress w) (Core.Ok b)
        (Core.Err err) (Core.startedAt c)) ∧
   (Core.balanceOf c (Core.Wallet.proxyAddress w) = Core.Err err →
    Core.positionsOf c (Core.Wallet.proxyAddress w) = Core.Ok p →
    Core.cache (Core.refresh registry e c) !! id
    = Core.merge (Some prev) (Core.Wallet.proxyAddress w) (Core.Err err)
        (Core.Ok p) (Core.startedAt c))) ∧
  (registry !! id = Some w → Core.cache e !! id = None →
   Core.balanceOf c (Core.Wallet.proxyAddress w) = Core.Err err →
   Core.positionsOf c (Core.Wallet.proxyAddress w) = Core.Err err' →
   Core.cache (Core.refresh registry e c) !! id = None).
Proof.
  split_and!; try reflexivity.
  - intros Hw Hen Hprev. rewrite refresh_lookup, Hw, Hprev. simpl. rewrite Hen.
    split; intros -> ->; reflexivity.
  - intros Hw Hprev Hb Hp. rewrite refresh_lookup, Hw, Hprev. simpl.
    rewrite Hb, Hp. by destruct (Core.Wallet.enabled w).
Qed.

Lemma merge_partial_failure_witness :
  let registry : gmap string Core.Wallet.t :=
    {["W1" := Core.Wallet.mk "1-Sports" "0xA" true;
      "W2" := Core.Wallet.mk "2-ETH" "0xB" true]} in
  let prev := Core.BalanceSample.mk "0xA" 100 50 150 1000 false in
  let e := Core.mkEngine {["W1" := prev]} (Some 1000%Z) in
  let c :=
    Core.mkCycle (λ a, if decide (a = "0xA") then Core.Ok 120
                       else Core.Err Core.Timeout)
      (λ a, if decide (a = "0xA") then Core.Err Core.BadResponse
            else Core.Err Core.Unreachable) 2000 in
  Core.cache (Core.refresh registry e c) !! "W1"
  = Some (Core.BalanceSample.mk "0xA" 120 50 170 2000 true) ∧
  Core.cache (Core.refresh registry e c) !! "W2" = None.
Proof.
  intros registry prev e c.
  pose proof (merge_partial_failure registry e c "W1" "0xA"
                (Core.Wallet.mk "1-Sports" "0xA" true) prev 120 0 2000
                Core.BadResponse Core.BadResponse) as (_ & _ & _ & Hone & _).
  pose proof (merge_partial_failure registry e c "W2" "0xB"
                (Core.Wallet.mk "2-ETH" "0xB" true) prev 0 0 2000
                Core.Timeout Core.Unreachable) as (_ & _ & _ & _ & Hnone).
  split.
  - exact (proj1 (Hone eq_refl eq_refl eq_refl) eq_refl eq_refl).
  - exact (Hnone eq_refl eq_refl eq_refl eq_refl).
Defined.

(** C8. Before any refresh the cached view answers, with an empty list of
    wallets; the page that loads it shows no wallet and stamps no update
    time, and when its two other requests are answered nothing is reported
    to the console. *)
Theorem cached_before_refresh (NEXT_PUBLIC_API_URL : option string)
    (configRes : Page.Fetched (list WalletConfig.t))
    (historyRes : Page.Fetched (list HistoryEntry.t))
    (ok ok' : bool) (configs : list WalletConfig.t) (hist : list HistoryEntry.t) :
  Core.get_portfolio_cached Core.startup
  = Page.Response true (Some {| Page.cached_wallets := Some [] |}) ∧
  (let w' := (Page.loadCachedData NEXT_PUBLIC_API_URL configRes
                (Core.get_portfolio_cached Core.startup) historyRes
                Page.initialWorld).2 in
   Page.wallets (Page.state w') = [] ∧ Page.lastUpdated (Page.state w') = None) ∧
  Page.loadCachedData NEXT_PUBLIC_API_URL (Page.Response ok (Some configs))
    (Core.get_portfolio_cached Core.startup) (Page.Response ok' (Some hist))
    Page.initialWorld
  = (Page.Done (),
     {| Page.state :=
          {| Page.mounted := false; Page.wallets := [];
             Page.walletConfigs := if ok then configs else [];
             Page.history := if ok' then hist else [];
             Page.loading := false; Page.selectedRange := "1h";
             Page.lastUpdated := None |};
        Page.sent :=
          [Page.mkRequest Page.GET (Page.wallets_url NEXT_PUBLIC_API_URL);
           Page.mkRequest Page.GET (Page.cached_url NEXT_PUBLIC_API_URL);
           Page.mkRequest Page.GET (Page.history_url NEXT_PUBLIC_API_URL)];
        Page.console := [] |}).
Proof.
  assert (Core.get_portfolio_cached Core.startup
          = Page.Response true (Some {| Page.cached_wallets := Some [] |})) as ->.
  { unfold Core.get_portfolio_cached, Core.getAll. simpl.
    by rewrite map_to_list_empty. }
  split_and!; [done| |by destruct ok, ok'].
  by destruct configRes as [|[] [cs|]], historyRes as [|[] [hs|]].
Qed.

(** ** The time window of the chart *)

Ltac in_list := repeat first [apply list_elem_of_here | apply list_elem_of_further].

Ltac not_in_list :=
  let H := fresh in
  intros H; repeat (apply elem_of_cons in H as [H|H]; [discriminate H|]);
  by apply elem_of_nil in H.

Lemma filteredHistory_range (now : number) (history : list HistoryEntry.t)
    (label : string) (range : number) :
  (label, range) ∈ Page.TIME_RANGES →
  Page.filteredHistory now history label
  = filter (λ h, now - range ≤ HistoryEntry.timestamp h)%Z history.
Proof.
  intros H. unfold Page.TIME_RANGES in H.
  repeat (apply elem_of_cons in H as [H|H]; [injection H as -> ->; reflexivity|]).
  by apply elem_of_nil in H.
Qed.

Lemma filter_weaken {A} (P Q : A → Prop) `{!∀ x, Decision (P x)} `{!∀ x, Decision (Q x)}
    (l : list A) :
  (∀ x, P x → Q x) → filter P l `sublist_of` filter Q l.
Proof.
  intros HPQ. induction l as [|x l IH]; [done|].
  rewrite !filter_cons. destruct (decide (P x)) as [HP|HP].
  - rewrite decide_True by auto. by apply sublist_skip.
  - destruct (decide (Q x)); [by apply sublist_cons|done].
Qed.

(** X1. With one of the seven range labels selected, the chart keeps exactly
    the entries of the history whose time stamp is not older than the length
    of the range before now. *)
Theorem filteredHistory_window (now : number) (history : list HistoryEntry.t)
    (label : string) (range : number) (h : HistoryEntry.t) :
  (label, range) ∈ Page.TIME_RANGES →
  h ∈ Page.filteredHistory now history label
  ↔ h ∈ history ∧ (now - range ≤ HistoryEntry.timestamp h)%Z.
Proof.
  intros H. rewrite (filteredHistory_range now history label range H).
  rewrite list_elem_of_filter. tauto.
Qed.

Lemma filteredHistory_window_witness :
  let old := HistoryEntry.mk 1000 5 ∅ in
  let recent := HistoryEntry.mk 9000000 7 ∅ in
  ("1h", 3600000%Z) ∈ Page.TIME_RANGES ∧
  (recent ∈ Page.filteredHistory 10000000 [old; recent] "1h") ∧
  ¬ (old ∈ Page.filteredHistory 10000000 [old; recent] "1h").
Proof.
  intros old recent.
  assert (("1h", 3600000%Z) ∈ Page.TIME_RANGES) as Hin by (unfold Page.TIME_RANGES; in_list).
  split_and!; [exact Hin| |].
  - apply (filteredHistory_window 10000000 [old; recent] "1h" 3600000 recent Hin).
    split; [in_list|simpl; lia].
  - intros Hold.
    apply (filteredHistory_window 10000000 [old; recent] "1h" 3600000 old Hin) in Hold.
    destruct Hold as [_ Hold]. simpl in Hold. lia.
Defined.

(** X2. With a selected label that is none of the seven range labels, the
    chart keeps the whole history. *)
Theorem filteredHistory_unknown_range (now : number) (history : list HistoryEntry.t)
    (label : string) :
  label ∉ Page.TIME_RANGES.*1 →
  Page.filteredHistory now history label = history.
Proof.
  intros H. unfold Page.filteredHistory.
  destruct (list_find _ _) as [[i [l r]]|] eqn:Hfind; [|done].
  apply list_find_Some in Hfind as (Hi & Hl & _). simpl in Hl. subst l.
  exfalso. apply H. apply list_elem_of_fmap. exists (label, r). split; [done|].
  by eapply list_elem_of_lookup_2.
Qed.

Lemma filteredHistory_unknown_range_witness :
  let h := HistoryEntry.mk 1000 5 ∅ in
  ("2h" ∉ Page.TIME_RANGES.*1) ∧ Page.filteredHistory 10000000 [h] "2h" = [h].
Proof.
  intros h.
  assert ("2h" ∉ Page.TIME_RANGES.*1) as Hout.
  { unfold Page.TIME_RANGES. simpl. not_in_list. }
  split; [exact Hout|]. exact (filteredHistory_unknown_range 10000000 [h] "2h" Hout).
Defined.

(** X3. Whatever label is selected, the chart shows entries of the history
    only, in the order of the history. *)
Theorem filteredHistory_sublist (now : number) (history : list HistoryEntry.t)
    (label : string) :
  Page.filteredHistory now history label `sublist_of` history.
Proof.
  unfold Page.filteredHistory. destruct (list_find _ _) as [[i [l r]]|]; [|done].
  apply sublist_filter.
Qed.

(** X4. A longer range shows at least what a shorter range shows: the
    entries kept for the shorter one are, in order, among those kept for the
    longer one. *)
Theorem filteredHistory_wider (now : number) (history : list HistoryEntry.t)
    (label label' : string) (range range' : number) :
  (label, range) ∈ Page.TIME_RANGES → (label', range') ∈ Page.TIME_RANGES →
  (range ≤ range')%Z →
  Page.filteredHistory now history label
  `sublist_of` Page.filteredHistory now history label'.
Proof.
  intros H H' Hle.
  rewrite (filteredHistory_range now history label range H).
  rewrite (filteredHistory_range now history label' range' H').
  apply filter_weaken. intros h. lia.
Qed.

Lemma filteredHistory_wider_witness :
  let h := HistoryEntry.mk 9000000 7 ∅ in
  ("10m", 600000%Z) ∈ Page.TIME_RANGES ∧ ("1D", 86400000%Z) ∈ Page.TIME_RANGES ∧
  (600000 ≤ 86400000)%Z ∧
  Page.filteredHistory 10000000 [h] "10m"
  `sublist_of` Page.filteredHistory 10000000 [h] "1D".
Proof.
  intros h.
  assert (("10m", 600000%Z) ∈ Page.TIME_RANGES) as H1 by (unfold Page.TIME_RANGES; in_list).
  assert (("1D", 86400000%Z) ∈ Page.TIME_RANGES) as H2 by (unfold Page.TIME_RANGES; in_list).
  assert (600000 ≤ 86400000)%Z as Hle by lia.
  split_and!; [exact H1 | exact H2 | exact Hle |].
  exact (filteredHistory_wider 10000000 [h] "10m" "1D" 600000 86400000 H1 H2 Hle).
Defined.

(** ** More on the chart rows *)

(** [forEach] from [start] writes the keys of the indices from [start] up to
    the end of the list only. *)
Lemma chart_cells_outside (h : HistoryEntry.t) (configs : list WalletConfig.t)
    (start : nat) (entry : gmap string Page.Cell) (k : string) :
  (∀ j, start ≤ j < start + length configs → k ≠ Page.wallet_key j) →
  Page.chart_cells h configs start entry !! k = entry !! k.
Proof.
  revert start entry. induction configs as [|c rest IH]; intros start entry Hk; [done|].
  simpl in *. rewrite IH by (intros j Hj; apply Hk; lia).
  unfold Page.chart_cell. destruct (HistoryEntry.wallets h !! _); [|done].
  apply lookup_insert_ne. intros Heq. apply (Hk start); [lia|done].
Qed.

(** X5. A chart row always carries the time stamp of its entry and its
    formatted time; the wallet series never overwrite them, and the chart has
    one row per entry of the filtered history. *)
Theorem chartData_time_axis (toLocaleTimeString : number → string)
    (filteredHistory : list HistoryEntry.t) (walletConfigs : list WalletConfig.t)
    (h : HistoryEntry.t) :
  length (Page.chartData toLocaleTimeString filteredHistory walletConfigs)
  = length filteredHistory ∧
  Page.chartRow toLocaleTimeString walletConfigs h !! "timestamp"
  = Some (Page.CNum (HistoryEntry.timestamp h)) ∧
  Page.chartRow toLocaleTimeString walletConfigs h !! "time"
  = Some (Page.CStr (toLocaleTimeString (HistoryEntry.timestamp h))).
Proof.
  split_and!.
  - unfold Page.chartData. apply length_fmap.
  - unfold Page.chartRow. rewrite chart_cells_outside by (intros j _; done).
    apply lookup_insert_eq.
  - unfold Page.chartRow. rewrite chart_cells_outside by (intros j _; done).
    rewrite lookup_insert_ne by done. apply lookup_insert_eq.
Qed.

(** X6. A chart row has no series beyond the configured wallets: the key
    [wallet_(idx + 1)] is absent for every [idx] from the number of
    configurations on, whatever addresses the entry holds. *)
Theorem chartRow_no_series_beyond (toLocaleTimeString : number → string)
    (walletConfigs : list WalletConfig.t) (h : HistoryEntry.t) (idx : nat) :
  length walletConfigs ≤ idx →
  Page.chartRow toLocaleTimeString walletConfigs h !! Page.wallet_key idx = None.
Proof.
  intros Hidx. unfold Page.chartRow. rewrite chart_cells_outside.
  - unfold Page.wallet_key. rewrite !lookup_insert_ne by done. done.
  - intros j Hj Heq. apply wallet_key_inj in Heq. lia.
Qed.

Lemma chartRow_no_series_beyond_witness :
  let config := WalletConfig.mk "1" "1-Sports" "0xA" in
  let h := HistoryEntry.mk 1000 1500 {["0xA" := 1500%Z; "0xB" := 20%Z]} in
  length [config] ≤ 1 ∧
  Page.chartRow (λ _, "12:00") [config] h !! Page.wallet_key 1 = None.
Proof.
  intros config h.
  assert (length [config] ≤ 1) as Hlen by (simpl; lia).
  split; [exact Hlen|].
  exact (chartRow_no_series_beyond (λ _, "12:00") [config] h 1 Hlen).
Defined.

(** ** The two loaders of the page *)

Lemma Math_max_spec (a : number) (l : list number) :
  (a ≤ Page.Math_max a l)%Z ∧
  Forall (λ x, x ≤ Page.Math_max a l)%Z l ∧
  (Page.Math_max a l = a ∨ Page.Math_max a l ∈ l).
Proof.
  unfold Page.Math_max. revert a. induction l as [|x l IH]; intros a.
  - split; [simpl; lia|]. split; [constructor | by left].
  - change (foldl Z.max a (x :: l)) with (foldl Z.max (a `max` x)%Z l).
    destruct (IH (a `max` x)%Z) as (Hle & Hall & Hex).
    split; [lia|]. split; [constructor; [lia|done] |].
    destruct Hex as [Hex|Hex]; [|right; by apply list_elem_of_further].
    rewrite Hex.
    destruct (Z.max_spec a x) as [[_ ->]|[_ ->]]; [right; apply list_elem_of_here | by left].
Qed.

Lemma Math_max_latest (a : number) (l : list WalletData.t) :
  let m := Page.Math_max a (WalletData.last_updated <$> l) in
  (a ≤ m)%Z ∧
  Forall (λ w, WalletData.last_updated w ≤ m)%Z l ∧
  (m = a ∨ Exists (λ w, WalletData.last_updated w = m) l).
Proof.
  intros m. destruct (Math_max_spec a (WalletData.last_updated <$> l)) as (Ha & Hall & Hex).
  fold m in Ha, Hall, Hex. split; [done|]. split.
  - apply Forall_forall. intros w Hw. rewrite Forall_forall in Hall.
    apply Hall. by apply list_elem_of_fmap_2.
  - destruct Hex as [Hex|Hex]; [by left|right].
    apply list_elem_of_fmap in Hex as (w & Hw & Hin).
    apply Exists_exists. by exists w.
Qed.

(** X7. [loadCachedData] never throws, sends exactly its three GET requests
    (wallets, cached view, history) whatever is answered, and never touches
    the loading flag. *)
Theorem loadCachedData_three_requests (NEXT_PUBLIC_API_URL : option string)
    (configRes : Page.Fetched (list WalletConfig.t))
    (cachedRes : Page.Fetched Page.CachedData)
    (historyRes : Page.Fetched (list HistoryEntry.t)) (w : Page.World) :
  let r := Page.loadCachedData NEXT_PUBLIC_API_URL configRes cachedRes historyRes w in
  r.1 = Page.Done () ∧
  Page.sent r.2
  = Page.sent w
    ++ [Page.mkRequest Page.GET (Page.wallets_url NEXT_PUBLIC_API_URL);
        Page.mkRequest Page.GET (Page.cached_url NEXT_PUBLIC_API_URL);
        Page.mkRequest Page.GET (Page.history_url NEXT_PUBLIC_API_URL)] ∧
  Page.loading (Page.state r.2) = Page.loading (Page.state w).
Proof.
  destruct configRes as [|[] [cs|]], cachedRes as [|[] [[[[|x l]|]]|]],
    historyRes as [|[] [hist|]]; simpl; rewrite <- ?app_assoc; done.
Qed.

(** X8. When one of the three requests of [loadCachedData] is rejected, the
    page keeps its whole state, even what the other two answered, and
    reports one error to the console. *)
Theorem loadCachedData_rejected (NEXT_PUBLIC_API_URL : option string)
    (configRes : Page.Fetched (list WalletConfig.t))
    (cachedRes : Page.Fetched Page.CachedData)
    (historyRes : Page.Fetched (list HistoryEntry.t)) (w : Page.World) :
  configRes = Page.Rejected ∨ cachedRes = Page.Rejected ∨ historyRes = Page.Rejected →
  let r := Page.loadCachedData NEXT_PUBLIC_API_URL configRes cachedRes historyRes w in
  Page.state r.2 = Page.state w ∧
  Page.console r.2 = Page.console w ++ ["loadCachedData"].
Proof.
  intros [->|[->| ->]].
  - done.
  - by destruct configRes.
  - by destruct configRes, cachedRes.
Qed.

Lemma loadCachedData_rejected_witness :
  let w := WalletData.mk "0xA" 100 50 150 1 in
  let r := Page.loadCachedData None (Page.Response true (Some []))
             (Page.Response true (Some {| Page.cached_wallets := Some [w] |}))
             Page.Rejected Page.initialWorld in
  Page.state r.2 = Page.initialState ∧ Page.console r.2 = ["loadCachedData"].
Proof.
  intros w.
  exact (loadCachedData_rejected None (Page.Response true (Some []))
           (Page.Response true (Some {| Page.cached_wallets := Some [w] |}))
           Page.Rejected Page.initialWorld (or_intror (or_intror eq_refl))).
Defined.

(** X9. When the cached view lists wallets (and no request is rejected and
    the configuration answer is readable), the page shows that list and its
    update time is the latest [last_updated] of the list; an empty list
    leaves the update time as it was. *)
Theorem loadCachedData_latest_update (NEXT_PUBLIC_API_URL : option string)
    (ok ok' : bool) (configs : list WalletConfig.t) (hist : option (list HistoryEntry.t))
    (x : WalletData.t) (xs : list WalletData.t) (w : Page.World) :
  (let r := Page.loadCachedData NEXT_PUBLIC_API_URL (Page.Response ok (Some configs))
              (Page.Response true (Some {| Page.cached_wallets := Some (x :: xs) |}))
              (Page.Response ok' hist) w in
   Page.wallets (Page.state r.2) = x :: xs ∧
   ∃ m, Page.lastUpdated (Page.state r.2) = Some m ∧ latest_of m (x :: xs)) ∧
  (let r := Page.loadCachedData NEXT_PUBLIC_API_URL (Page.Response ok (Some configs))
              (Page.Response true (Some {| Page.cached_wallets := Some [] |}))
              (Page.Response ok' hist) w in
   Page.wallets (Page.state r.2) = [] ∧
   Page.lastUpdated (Page.state r.2) = Page.lastUpdated (Page.state w)).
Proof.
  split.
  - destruct (Math_max_latest (WalletData.last_updated x) xs) as (Hx & Hall & Hex).
    assert (latest_of (Page.Math_max (WalletData.last_updated x)
                         (WalletData.last_updated <$> xs)) (x :: xs)) as Hlatest.
    { split; [by constructor|].
      destruct Hex as [Hm|Hex]; [by apply Exists_cons_hd | by apply Exists_cons_tl]. }
    destruct ok, ok', hist as [hs|]; simpl; (split; [done|]); eexists; (split; [done|]);
      exact Hlatest.
  - by destruct ok, ok', hist as [hs|].
Qed.

(** X10. When the cached view answers ok but its body cannot be read, the
    configurations already taken over stay, the wallets, the update time and
    the history are left as they were, although the history answer had
    arrived, and one error is reported. *)
Theorem loadCachedData_unreadable_cached (NEXT_PUBLIC_API_URL : option string)
    (configs : list WalletConfig.t) (ok' : bool) (hist : option (list HistoryEntry.t))
    (w : Page.World) :
  let r := Page.loadCachedData NEXT_PUBLIC_API_URL (Page.Response true (Some configs))
             (Page.Response true None) (Page.Response ok' hist) w in
  Page.walletConfigs (Page.state r.2) = configs ∧
  Page.wallets (Page.state r.2) = Page.wallets (Page.state w) ∧
  Page.lastUpdated (Page.state r.2) = Page.lastUpdated (Page.state w) ∧
  Page.history (Page.state r.2) = Page.history (Page.state w) ∧
  Page.console r.2 = Page.console w ++ ["loadCachedData"].
Proof. done. Qed.

(** X11. [refreshData] never throws and always ends with the loading flag
    down, whatever the two requests answer; it never changes the wallet
    configurations nor the selected range. *)
Theorem refreshData_completes (NEXT_PUBLIC_API_URL : option string)
    (refreshRes : Page.Fetched Page.RefreshedData)
    (historyRes : Page.Fetched (list HistoryEntry.t)) (now : number) (w : Page.World) :
  let r := Page.refreshData NEXT_PUBLIC_API_URL refreshRes historyRes now w in
  r.1 = Page.Done () ∧
  Page.loading (Page.state r.2) = false ∧
  Page.walletConfigs (Page.state r.2) = Page.walletConfigs (Page.state w) ∧
  Page.selectedRange (Page.state r.2) = Page.selectedRange (Page.state w).
Proof.
  destruct refreshRes as [|[] [data|]]; try done.
  by destruct historyRes as [|[] [hist|]].
Qed.

(** X12. When the refresh request is rejected or answered with a status that
    is not ok, the page keeps its wallets, its update time and its history
    and does not ask for the history; only a rejection is reported to the
    console. *)
Theorem refreshData_refused (NEXT_PUBLIC_API_URL : option string)
    (body : option Page.RefreshedData)
    (historyRes : Page.Fetched (list HistoryEntry.t)) (now : number) (w : Page.World) :
  let rejected := Page.refreshData NEXT_PUBLIC_API_URL Page.Rejected historyRes now w in
  let refused :=
    Page.refreshData NEXT_PUBLIC_API_URL (Page.Response false body) historyRes now w in
  (Page.wallets (Page.state rejected.2) = Page.wallets (Page.state w) ∧
   Page.lastUpdated (Page.state rejected.2) = Page.lastUpdated (Page.state w) ∧
   Page.history (Page.state rejected.2) = Page.history (Page.state w) ∧
   Page.sent rejected.2
   = Page.sent w ++ [Page.mkRequest Page.GET (Page.refresh_url NEXT_PUBLIC_API_URL)] ∧
   Page.console rejected.2 = Page.console w ++ ["refreshData"]) ∧
  (Page.wallets (Page.state refused.2) = Page.wallets (Page.state w) ∧
   Page.lastUpdated (Page.state refused.2) = Page.lastUpdated (Page.state w) ∧
   Page.history (Page.state refused.2) = Page.history (Page.state w) ∧
   Page.sent refused.2
   = Page.sent w ++ [Page.mkRequest Page.GET (Page.refresh_url NEXT_PUBLIC_API_URL)] ∧
   Page.console refused.2 = Page.console w).
Proof. done. Qed.

(** X13. After an ok and readable refresh answer the page asks for the
    history; the history it shows is replaced exactly when that second
    answer is ok and readable, and is kept otherwise, while the wallets and
    the update time are those of the refresh in both cases. *)
Theorem refreshData_history (NEXT_PUBLIC_API_URL : option string)
    (data : Page.RefreshedData) (historyRes : Page.Fetched (list HistoryEntry.t))
    (now : number) (w : Page.World) :
  let r := Page.refreshData NEXT_PUBLIC_API_URL (Page.Response true (Some data))
             historyRes now w in
  Page.sent r.2
  = Page.sent w ++ [Page.mkRequest Page.GET (Page.refresh_url NEXT_PUBLIC_API_URL);
                    Page.mkRequest Page.GET (Page.history_url NEXT_PUBLIC_API_URL)] ∧
  Page.wallets (Page.state r.2) = Page.or_empty (Page.refreshed_data data) ∧
  Page.lastUpdated (Page.state r.2) = Some now ∧
  Page.history (Page.state r.2)
  = match historyRes with
    | Page.Response true (Some hist) => hist
    | _ => Page.history (Page.state w)
    end.
Proof.
  destruct historyRes as [|[] [hist|]]; simpl; rewrite <- ?app_assoc; done.
Qed.

(** ** The wallet list and its colours *)

Lemma find_wallet_Some (wallets : list WalletData.t) (config : WalletConfig.t)
    (w : WalletData.t) :
  Page.find_wallet wallets config = Some w →
  w ∈ wallets ∧ WalletData.proxy_address w = WalletConfig.proxy_address config.
Proof.
  unfold Page.find_wallet. destruct (list_find _ _) as [[i x]|] eqn:Hfind; [|done].
  intros [= <-]. apply list_find_Some in Hfind as (Hi & Hx & _).
  split; [by eapply list_elem_of_lookup_2 | done].
Qed.

Lemma find_wallet_None (wallets : list WalletData.t) (config : WalletConfig.t) :
  Page.find_wallet wallets config = None →
  ∀ w, w ∈ wallets → WalletData.proxy_address w ≠ WalletConfig.proxy_address config.
Proof.
  unfold Page.find_wallet. destruct (list_find _ _) as [[i x]|] eqn:Hfind; [done|].
  intros _ w Hw. apply list_find_None in Hfind.
  rewrite Forall_forall in Hfind. by apply Hfind.
Qed.

(** X14. The wallet list has one slot per configuration, in order. The slot
    of a configuration is empty exactly when no wallet of the page has its
    proxy address; otherwise its card prints a wallet of the page with that
    address, with the colour of its position. *)
Theorem walletList_slot (wallets : list WalletData.t)
    (walletConfigs : list WalletConfig.t) (idx : nat) (config : WalletConfig.t) :
  walletConfigs !! idx = Some config →
  length (Page.walletList wallets walletConfigs) = length walletConfigs ∧
  ((Page.walletList wallets walletConfigs !! idx = Some None ∧
    ∀ w, w ∈ wallets →
         WalletData.proxy_address w ≠ WalletConfig.proxy_address config) ∨
   ∃ w, Page.walletList wallets walletConfigs !! idx
        = Some (Some (Page.mkCard config w (Page.color idx))) ∧
        w ∈ wallets ∧
        WalletData.proxy_address w = WalletConfig.proxy_address config).
Proof.
  intros Hidx. unfold Page.walletList. split; [apply length_imap|].
  rewrite list_lookup_imap, Hidx. simpl. unfold Page.walletCard.
  destruct (Page.find_wallet wallets config) as [w|] eqn:Hfind.
  - right. exists w. split; [done|]. by apply find_wallet_Some.
  - left. split; [done|]. by apply find_wallet_None.
Qed.

Lemma walletList_slot_witness :
  let config := WalletConfig.mk "1" "1-Sports" "0xA" in
  let other := WalletConfig.mk "2" "2-ETH" "0xB" in
  let w := WalletData.mk "0xA" 100 50 150 1 in
  [config; other] !! 1 = Some other ∧
  Page.walletList [w] [config; other] !! 0
  = Some (Some (Page.mkCard config w (Some "#60a5fa"))) ∧
  Page.walletList [w] [config; other] !! 1 = Some None.
Proof.
  intros config other w.
  destruct (walletList_slot [w] [config; other] 1 other eq_refl) as [_ [[Hnone _]|Hcard]].
  - split_and!; [reflexivity | reflexivity | exact Hnone].
  - exfalso. destruct Hcard as (w' & _ & Hin & Haddr).
    apply list_elem_of_singleton in Hin. subst w'. discriminate Haddr.
Defined.

Lemma printed_walletList_from (wallets : list WalletData.t)
    (walletConfigs : list WalletConfig.t) (g : nat → nat) :
  printed (imap (λ i, Page.walletCard wallets (g i)) walletConfigs)
  = omap (Page.find_wallet wallets) walletConfigs.
Proof.
  unfold printed. revert g. induction walletConfigs as [|c cs IH]; intros g; [done|].
  rewrite imap_cons. simpl. unfold Page.walletCard at 1.
  destruct (Page.find_wallet wallets c); simpl; [f_equal|]; apply (IH (g ∘ S)).
Qed.

Lemma printed_walletList (wallets : list WalletData.t)
    (walletConfigs : list WalletConfig.t) :
  printed (Page.walletList wallets walletConfigs)
  = omap (Page.find_wallet wallets) walletConfigs.
Proof. apply (printed_walletList_from wallets walletConfigs id). Qed.

Lemma fmap_NoDup_inj {A B} (f : A → B) (l : list A) (x y : A) :
  NoDup (f <$> l) → x ∈ l → y ∈ l → f x = f y → x = y.
Proof.
  intros Hnd Hx Hy Hxy.
  apply list_elem_of_lookup in Hx as [i Hi]. apply list_elem_of_lookup in Hy as [j Hj].
  assert (i = j) as ->.
  { apply (NoDup_lookup (f <$> l) i j (f x)); [done| |].
    - by rewrite list_lookup_fmap, Hi.
    - by rewrite list_lookup_fmap, Hj, Hxy. }
  congruence.
Qed.

Lemma found_NoDup (wallets : list WalletData.t) (walletConfigs : list WalletConfig.t) :
  NoDup (WalletConfig.proxy_address <$> walletConfigs) →
  NoDup (omap (Page.find_wallet wallets) walletConfigs).
Proof.
  induction walletConfigs as [|c cs IH]; intros Hnd; [constructor|].
  rewrite fmap_cons in Hnd. apply NoDup_cons in Hnd as [Hc Hcs]. simpl.
  destruct (Page.find_wallet wallets c) as [w|] eqn:Hfind; [|by apply IH].
  apply NoDup_cons. split; [|by apply IH].
  intros Hin. apply list_elem_of_omap in Hin as (c' & Hc' & Hfind').
  apply find_wallet_Some in Hfind as [_ Haddr].
  apply find_wallet_Some in Hfind' as [_ Haddr'].
  apply Hc. rewrite <- Haddr, Haddr'. by apply list_elem_of_fmap_2.
Qed.

(** X15. When the configurations have pairwise different proxy addresses,
    the wallets of the page too, and every wallet of the page is configured,
    the cards of the wallet list print exactly the wallets of the page, each
    once. *)
Theorem walletList_prints_all (wallets : list WalletData.t)
    (walletConfigs : list WalletConfig.t) :
  NoDup (WalletConfig.proxy_address <$> walletConfigs) →
  NoDup (WalletData.proxy_address <$> wallets) →
  (∀ w, w ∈ wallets →
        WalletData.proxy_address w ∈ WalletConfig.proxy_address <$> walletConfigs) →
  printed (Page.walletList wallets walletConfigs) ≡ₚ wallets.
Proof.
  intros Hconfigs Hwallets Hall.
  rewrite printed_walletList. apply NoDup_Permutation.
  - by apply found_NoDup.
  - by eapply NoDup_fmap_1.
  - intros w. rewrite list_elem_of_omap. split.
    + intros (c & _ & Hfind). by apply find_wallet_Some in Hfind as [Hin _].
    + intros Hw. pose proof (Hall w Hw) as Hc.
      apply list_elem_of_fmap in Hc as (c & Haddr & Hc).
      exists c. split; [done|].
      destruct (Page.find_wallet wallets c) as [w'|] eqn:Hfind.
      * f_equal. apply find_wallet_Some in Hfind as [Hw' Haddr'].
        apply (fmap_NoDup_inj WalletData.proxy_address wallets);
          [done | done | done | congruence].
      * exfalso. by apply (find_wallet_None wallets c Hfind w Hw).
Qed.

Lemma walletList_prints_all_witness :
  let configs := [WalletConfig.mk "1" "1-Sports" "0xA"; WalletConfig.mk "2" "2-ETH" "0xB"] in
  let wallets := [WalletData.mk "0xB" 7 20 27 2; WalletData.mk "0xA" 100 50 150 1] in
  NoDup (WalletConfig.proxy_address <$> configs) ∧
  NoDup (WalletData.proxy_address <$> wallets) ∧
  printed (Page.walletList wallets configs) ≡ₚ wallets.
Proof.
  intros configs wallets.
  assert (NoDup (WalletConfig.proxy_address <$> configs)) as H1.
  { simpl. apply NoDup_cons. split; [not_in_list|]. apply NoDup_singleton. }
  assert (NoDup (WalletData.proxy_address <$> wallets)) as H2.
  { simpl. apply NoDup_cons. split; [not_in_list|]. apply NoDup_singleton. }
  assert (∀ w, w ∈ wallets →
               WalletData.proxy_address w ∈ WalletConfig.proxy_address <$> configs) as H3.
  { intros w Hw. apply elem_of_cons in Hw as [->|Hw]; [simpl; in_list|].
    apply list_elem_of_singleton in Hw. subst w. simpl. in_list. }
  split_and!; [exact H1 | exact H2 |].
  exact (walletList_prints_all wallets configs H1 H2 H3).
Defined.

(** X16. Every position has a colour, and two positions of the wallet list
    have the same colour exactly when they differ by a multiple of six, the
    number of colours. *)
Theorem color_cycle (i j : nat) :
  is_Some (Page.color i) ∧
  (Page.color i = Page.color j ↔ i `mod` 6 = j `mod` 6).
Proof.
  unfold Page.color.
  change (length Page.COLORS) with 6.
  assert (∀ n, is_Some (Page.COLORS !! (n `mod` 6))) as Hsome.
  { intros n. apply lookup_lt_is_Some. change (length Page.COLORS) with 6.
    apply Nat.mod_upper_bound. lia. }
  split; [apply Hsome|]. split; [|by intros ->].
  intros Heq. destruct (Hsome i) as [c Hc]. rewrite Hc in Heq.
  assert (NoDup Page.COLORS) as Hnd by (by apply (bool_decide_unpack _)).
  by apply (NoDup_lookup Page.COLORS _ _ c Hnd).
Qed.

(** ** More on the positions-value provider *)

Lemma for_item_in_number (float_of_str : string → option number) (data : list json)
    (n : number) :
  CashoutService.for_item_in float_of_str data = CashoutService.Return (Some n) →
  ∃ item v, JObj item ∈ data ∧ member "value" item = Some v ∧
            CashoutService.float float_of_str (Some v) = CashoutService.Return n.
Proof.
  induction data as [|j data IH]; [done|]. intros H.
  assert (CashoutService.for_item_in float_of_str data = CashoutService.Return (Some n) →
          ∃ item v, JObj item ∈ j :: data ∧ member "value" item = Some v ∧
                    CashoutService.float float_of_str (Some v) = CashoutService.Return n)
    as Hrest.
  { intros Hdata. destruct (IH Hdata) as (item & v & Hin & Hv & Hfloat).
    exists item, v. split; [by apply list_elem_of_further|done]. }
  destruct j as [| | | | |item]; simpl in H; try by apply Hrest.
  destruct (has_key "value" item); [|by apply Hrest].
  unfold CashoutService.return_float in H.
  destruct (member "value" item) as [v|] eqn:Hv; [|done].
  destruct (CashoutService.float float_of_str (Some v)) as [m|e] eqn:Hfloat; [|done].
  injection H as ->. exists item, v. split; [apply list_elem_of_here|done].
Qed.

(** X17. The two shapes of the answer agree: for a list whose first object
    with a [value] member is [item], the provider gives what it gives for
    the object [item] alone, a number or the same error. *)
Theorem positions_value_list_as_object (float_of_str : string → option number)
    (before after : list json) (item : list (string * json)) :
  Forall (λ j, valued j = false) before →
  has_key "value" item = true →
  CashoutService.get_positions_value float_of_str
    (CashoutService.Answer 200 (Some (JArr (before ++ JObj item :: after))))
  = CashoutService.get_positions_value float_of_str
      (CashoutService.Answer 200 (Some (JObj item))).
Proof. intros Hbefore Hitem. simpl. by apply for_item_in_first. Qed.

Lemma positions_value_list_as_object_witness :
  let f : string → option number := λ _, None in
  let item := [("user", JStr "0xA"); ("value", JNum 1234560000)] in
  Forall (λ j, valued j = false) [JNull; JObj [("user", JStr "0xA")]] ∧
  has_key "value" item = true ∧
  CashoutService.get_positions_value f
    (CashoutService.Answer 200
       (Some (JArr ([JNull; JObj [("user", JStr "0xA")]] ++ JObj item :: [JNum 3]))))
  = CashoutService.get_positions_value f (CashoutService.Answer 200 (Some (JObj item))).
Proof.
  intros f item.
  assert (Forall (λ j, valued j = false) [JNull; JObj [("user", JStr "0xA")]]) as Hun
    by (repeat constructor).
  split_and!; [exact Hun | reflexivity |].
  exact (positions_value_list_as_object f _ [JNum 3] item Hun eq_refl).
Defined.

(** X18. A number is only ever returned for an answer with status 200 whose
    body is an object, or a list holding an object, with a [value] member
    that [float] accepts; the number is [float] of that member. *)
Theorem positions_value_number_origin (float_of_str : string → option number)
    (resp : CashoutService.HttpOutcome) (n : number) :
  CashoutService.get_positions_value float_of_str resp = CashoutService.Return (Some n) →
  ∃ body item v,
    resp = CashoutService.Answer 200 (Some body) ∧
    (body = JObj item ∨ ∃ data, body = JArr data ∧ JObj item ∈ data) ∧
    member "value" item = Some v ∧
    CashoutService.float float_of_str (Some v) = CashoutService.Return n.
Proof.
  destruct resp as [|status body]; [done|]. simpl.
  destruct (decide (status ≠ 200%Z)) as [|Hstatus]; [done|].
  assert (status = 200%Z) as -> by lia.
  destruct body as [[| | | |data|d]|]; try done.
  - intros H. apply for_item_in_number in H as (item & v & Hin & Hv & Hfloat).
    exists (JArr data), item, v. split_and!; [done| |done|done].
    right. by exists data.
  - unfold CashoutService.return_float.
    destruct (member "value" d) as [v|] eqn:Hv; [|done].
    destruct (CashoutService.float float_of_str (Some v)) as [m|e] eqn:Hfloat; [|done].
    intros [= ->]. exists (JObj d), d, v. split_and!; [done|by left|done|done].
Qed.

Lemma positions_value_number_origin_witness :
  let f : string → option number := λ _, None in
  let resp := CashoutService.Answer 200 (Some (JArr [JObj [("value", JNum 1234560000)]])) in
  CashoutService.get_positions_value f resp = CashoutService.Return (Some 1234560000%Z) ∧
  ∃ body item v,
    resp = CashoutService.Answer 200 (Some body) ∧
    (body = JObj item ∨ ∃ data, body = JArr data ∧ JObj item ∈ data) ∧
    member "value" item = Some v ∧
    CashoutService.float f (Some v) = CashoutService.Return 1234560000%Z.
Proof.
  intros f resp. split; [reflexivity|].
  exact (positions_value_number_origin f resp 1234560000 eq_refl).
Defined.

(** ** More on the bounded history *)

(** X19. The history is always a suffix of the series of appended entries,
    so it keeps their order and drops from the old end only; up to 500
    appends nothing is dropped; and the entry appended last is the last of
    the history. *)
Theorem balanceHistory_keeps_recent
    (prev entries : list WalletsContext.BalanceEntry)
    (newEntry : WalletsContext.BalanceEntry) :
  WalletsContext.balanceHistory entries `suffix_of` entries ∧
  (length entries ≤ 500 → WalletsContext.balanceHistory entries = entries) ∧
  last (WalletsContext.setBalanceHistory prev newEntry) = Some newEntry ∧
  WalletsContext.balanceHistory (entries ++ [newEntry])
  = WalletsContext.setBalanceHistory (WalletsContext.balanceHistory entries) newEntry.
Proof.
  split_and!.
  - rewrite balanceHistory_slice. apply suffix_drop.
  - intros Hlen. rewrite balanceHistory_slice. by apply slice_last_short.
  - apply last_snoc.
  - unfold WalletsContext.balanceHistory. apply foldl_snoc.
Qed.

Lemma balanceHistory_keeps_recent_witness :
  let e := λ i, WalletsContext.mkBalanceEntry "12:00" i 0 ∅ in
  length [e 1%Z; e 2%Z; e 3%Z] ≤ 500 ∧
  WalletsContext.balanceHistory [e 1%Z; e 2%Z; e 3%Z] = [e 1%Z; e 2%Z; e 3%Z].
Proof.
  intros e.
  assert (length [e 1%Z; e 2%Z; e 3%Z] ≤ 500) as Hlen by (simpl; lia).
  split; [exact Hlen|].
  exact (proj1 (proj2 (balanceHistory_keeps_recent [] [e 1%Z; e 2%Z; e 3%Z] (e 0%Z))) Hlen).
Defined.

(** ** More on the triggers *)

Lemma handle_keeps (NEXT_PUBLIC_API_URL : option string) (e : Page.Event)
    (s s' : Page.Session) :
  Page.handle NEXT_PUBLIC_API_URL e s = Some s' →
  (Page.loading (Page.state (Page.world s)) = true → 1 ≤ Page.in_flight s) →
  Forall (λ r, Page.method r = Page.GET) (Page.sent (Page.world s)) →
  (Page.loading (Page.state (Page.world s')) = true → 1 ≤ Page.in_flight s') ∧
  Forall (λ r, Page.method r = Page.GET) (Page.sent (Page.world s')).
Proof.
  intros Hstep Hflag HGET.
  assert (Page.start_refresh NEXT_PUBLIC_API_URL s = s' →
          (Page.loading (Page.state (Page.world s')) = true → 1 ≤ Page.in_flight s') ∧
          Forall (λ r, Page.method r = Page.GET) (Page.sent (Page.world s'))) as Hstart.
  { intros <-. split; [simpl; lia|]. unfold Page.start_refresh. simpl.
    apply Forall_app. split; [done|by repeat constructor]. }
  destruct e as [| |refreshRes historyRes now]; simpl in Hstep.
  - destruct (Page.loading (Page.state (Page.world s))); [done|].
    injection Hstep as Hstep. by apply Hstart.
  - injection Hstep as Hstep. by apply Hstart.
  - destruct (Page.in_flight s) as [|n]; [done|]. injection Hstep as <-. simpl.
    rewrite resume_lowers_loading. split; [done|].
    destruct (resume_sends NEXT_PUBLIC_API_URL refreshRes historyRes now (Page.world s))
      as (more & -> & Hmore).
    apply Forall_app. by split.
Qed.

(** X20. Through any series of clicks, ticks and answers since the page was
    mounted, the loading flag is up only while a refresh is in flight, so
    the button is never left disabled with nothing pending, and every
    request the refreshes have sent is a GET. *)
Theorem loading_only_in_flight (NEXT_PUBLIC_API_URL : option string)
    (events : list Page.Event) (s : Page.Session) :
  Page.run NEXT_PUBLIC_API_URL events Page.initialSession = Some s →
  (Page.loading (Page.state (Page.world s)) = true → 1 ≤ Page.in_flight s) ∧
  Forall (λ r, Page.method r = Page.GET) (Page.sent (Page.world s)).
Proof.
  assert (∀ s0,
            (Page.loading (Page.state (Page.world s0)) = true → 1 ≤ Page.in_flight s0) →
            Forall (λ r, Page.method r = Page.GET) (Page.sent (Page.world s0)) →
            Page.run NEXT_PUBLIC_API_URL events s0 = Some s →
            (Page.loading (Page.state (Page.world s)) = true → 1 ≤ Page.in_flight s) ∧
            Forall (λ r, Page.method r = Page.GET) (Page.sent (Page.world s))) as Hrun.
  { induction events as [|e events IH]; intros s0 Hflag HGET Hrun.
    - injection Hrun as <-. done.
    - simpl in Hrun.
      destruct (Page.handle NEXT_PUBLIC_API_URL e s0) as [s1|] eqn:Hstep; [|done].
      destruct (handle_keeps NEXT_PUBLIC_API_URL e s0 s1 Hstep Hflag HGET) as [Hflag1 HGET1].
      by apply (IH s1). }
  apply Hrun; [done|constructor].
Qed.

Lemma loading_only_in_flight_witness :
  let events := [Page.Click; Page.Tick; Page.Settle Page.Rejected Page.Rejected 0;
                 Page.Settle (Page.Response false None) Page.Rejected 0] in
  ∃ s, Page.run None events Page.initialSession = Some s ∧
       Page.in_flight s = 0 ∧
       Page.loading (Page.state (Page.world s)) = false ∧
       Forall (λ r, Page.method r = Page.GET) (Page.sent (Page.world s)).
Proof.
  intros events. eexists. split; [reflexivity|].
  split; [reflexivity|]. split; [reflexivity|].
  refine (proj2 (loading_only_in_flight None events _ eq_refl)).
Defined.

(** ** Wallets without a card *)

(** X21. A wallet of the page whose proxy address is not configured is
    printed on no card of the wallet list, wherever it stands in the list of
    wallets. *)
Theorem unconfigured_wallet_no_card (before after : list WalletData.t)
    (w : WalletData.t) (walletConfigs : list WalletConfig.t) :
  WalletData.proxy_address w ∉ WalletConfig.proxy_address <$> walletConfigs →
  w ∉ printed (Page.walletList (before ++ w :: after) walletConfigs).
Proof.
  intros Hw. rewrite printed_walletList. intros Hin.
  apply list_elem_of_omap in Hin as (c & Hc & Hfind).
  apply find_wallet_Some in Hfind as [_ Haddr].
  apply Hw. rewrite Haddr. by apply list_elem_of_fmap_2.
Qed.

Lemma unconfigured_wallet_no_card_witness :
  let config := WalletConfig.mk "1" "1-Sports" "0xA" in
  let known := WalletData.mk "0xA" 100 50 150 1 in
  let stray := WalletData.mk "0xC" 7 20 27 2 in
  (WalletData.proxy_address stray ∉ WalletConfig.proxy_address <$> [config]) ∧
  (stray ∉ printed (Page.walletList [known; stray] [config])) ∧
  printed (Page.walletList [known; stray] [config]) = [known].
Proof.
  intros config known stray.
  assert (WalletData.proxy_address stray ∉ WalletConfig.proxy_address <$> [config]) as Hout.
  { simpl. not_in_list. }
  split_and!; [exact Hout | | reflexivity].
  exact (unconfigured_wallet_no_card [known] [] stray [config] Hout).
Defined.

(** ** The outcome of a refresh *)

Lemma attempted_lookup (registry : gmap string Core.Wallet.t) (id : string) :
  Core.attempted registry !! id
  = w ← registry !! id; if Core.Wallet.enabled w then Some w else None.
Proof. unfold Core.attempted. by rewrite map_lookup_imap. Qed.

Lemma unsampled_lookup (registry : gmap string Core.Wallet.t) (c : Core.Cycle)
    (cached : gmap string Core.BalanceSample.t) (id : string) :
  Core.unsampled registry c cached !! id
  = w ← registry !! id;
    if Core.Wallet.enabled w
    then match Core.merge (cached !! id) (Core.Wallet.proxyAddress w)
                 (Core.balanceOf c (Core.Wallet.proxyAddress w))
                 (Core.positionsOf c (Core.Wallet.proxyAddress w)) (Core.startedAt c) with
         | Some _ => None
         | None => Some w
         end
    else None.
Proof. unfold Core.unsampled. by rewrite map_lookup_imap. Qed.

(** Every enabled wallet is counted once, as sampled or as left out. *)
Lemma outcome_partition (registry : gmap string Core.Wallet.t) (c : Core.Cycle)
    (cached : gmap string Core.BalanceSample.t) :
  size (Core.produced registry c cached) + size (Core.unsampled registry c cached)
  = size (Core.attempted registry).
Proof.
  rewrite <- !(size_dom (D := gset string)).
  rewrite <- size_union.
  - f_equal. apply set_eq. intros id.
    rewrite elem_of_union, !elem_of_dom.
    rewrite produced_lookup, unsampled_lookup, attempted_lookup.
    destruct (registry !! id) as [w|]; simpl.
    + destruct (Core.Wallet.enabled w).
      * destruct (Core.merge _ _ _ _ _); split; eauto.
      * rewrite !is_Some_alt. tauto.
    + rewrite !is_Some_alt. tauto.
  - intros id. rewrite !elem_of_dom, produced_lookup, unsampled_lookup.
    destruct (registry !! id) as [w|]; simpl; [|by intros []].
    destruct (Core.Wallet.enabled w); [|by intros []].
    destruct (Core.merge _ _ _ _ _); [by intros _ []|by intros []].
Qed.

(** C5. The refresh endpoint always answers a [RefreshOutcome], whatever the
    providers answer: it carries the time of the cycle, the number of wallets
    for which the cycle committed a sample as [succeeded] and the number of
    enabled wallets left out as [failed], which together count every enabled
    wallet once, and the engine it leaves is that of the cycle. A wallet
    whose two fetches succeed makes [succeeded] at least one; when nothing is
    cached and every fetch fails, [succeeded] is zero and [failed] counts
    every enabled wallet. *)
Theorem refresh_reports_outcome
    (registry : gmap string Core.Wallet.t) (e : Core.Engine) (c : Core.Cycle)
    (id : string) (w : Core.Wallet.t) (b p : number) :
  let answered := Core.post_portfolio_refresh registry e c in
  answered.1 = Core.refresh registry e c ∧
  Core.timestamp answered.2 = Core.startedAt c ∧
  Core.succeeded answered.2 = size (Core.produced registry c (Core.cache e)) ∧
  Core.succeeded answered.2 + Core.failed answered.2 = size (Core.attempted registry) ∧
  (registry !! id = Some w → Core.Wallet.enabled w = true →
   Core.balanceOf c (Core.Wallet.proxyAddress w) = Core.Ok b →
   Core.positionsOf c (Core.Wallet.proxyAddress w) = Core.Ok p →
   1 ≤ Core.succeeded answered.2) ∧
  (Core.cache e = ∅ →
   (∀ a, ∃ err, Core.balanceOf c a = Core.Err err) →
   (∀ a, ∃ err, Core.positionsOf c a = Core.Err err) →
   Core.succeeded answered.2 = 0 ∧
   Core.failed answered.2 = size (Core.attempted registry)).
Proof.
  simpl. split_and!; try done.
  - apply outcome_partition.
  - intros Hw Hen Hb Hp.
    assert (size (Core.produced registry c (Core.cache e)) ≠ 0); [|lia].
    apply map_size_non_empty_iff. intros Hempty.
    assert (Core.produced registry c (Core.cache e) !! id = None) as Hnone
      by (by rewrite Hempty).
    rewrite produced_lookup, Hw in Hnone. simpl in Hnone.
    by rewrite Hen, Hb, Hp in Hnone.
  - intros Hcache Hbal Hpos.
    assert (Core.produced registry c (Core.cache e) = ∅) as Hnone.
    { apply map_empty. intros id'. rewrite produced_lookup, Hcache.
      destruct (registry !! id') as [w'|]; [|done]. simpl.
      destruct (Core.Wallet.enabled w'); [|done].
      destruct (Hbal (Core.Wallet.proxyAddress w')) as [eb ->].
      by destruct (Hpos (Core.Wallet.proxyAddress w')) as [ep ->]. }
    pose proof (outcome_partition registry c (Core.cache e)) as Hsum.
    rewrite Hnone, map_size_empty in *. split; [done|lia].
Qed.

Lemma refresh_reports_outcome_witness :
  let registry : gmap string Core.Wallet.t :=
    {["W1" := Core.Wallet.mk "1-Sports" "0xA" true;
      "W2" := Core.Wallet.mk "2-ETH" "0xB" true;
      "W3" := Core.Wallet.mk "3-BTC" "0xC" false]} in
  let partial :=
    Core.mkCycle (λ a, if decide (a = "0xA") then Core.Ok 100000000
                       else Core.Err Core.Timeout)
      (λ a, if decide (a = "0xA") then Core.Ok 50000000
            else Core.Err Core.Unreachable) 1000 in
  let outage :=
    Core.mkCycle (λ _, Core.Err Core.Timeout) (λ _, Core.Err Core.Unreachable) 2000 in
  (Core.post_portfolio_refresh registry Core.startup partial).2
  = Core.mkRefreshOutcome 1 1 1000 ∧
  1 ≤ Core.succeeded (Core.post_portfolio_refresh registry Core.startup partial).2 ∧
  Core.succeeded (Core.post_portfolio_refresh registry Core.startup outage).2 = 0 ∧
  Core.failed (Core.post_portfolio_refresh registry Core.startup outage).2
  = size (Core.attempted registry).
Proof.
  intros registry partial outage.
  destruct (refresh_reports_outcome registry Core.startup partial "W1"
              (Core.Wallet.mk "1-Sports" "0xA" true) 100000000 50000000)
    as (_ & _ & _ & _ & Hone & _).
  destruct (refresh_reports_outcome registry Core.startup outage "W1"
              (Core.Wallet.mk "1-Sports" "0xA" true) 0 0)
    as (_ & _ & _ & _ & _ & Hzero).
  destruct (Hzero eq_refl (λ _, ex_intro _ Core.Timeout eq_refl)
              (λ _, ex_intro _ Core.Unreachable eq_refl)) as [Hs Hf].
  split_and!.
  - vm_compute. reflexivity.
  - exact (Hone eq_refl eq_refl eq_refl eq_refl).
  - exact Hs.
  - exact Hf.
Defined.

(** ** One cycle at a time *)

Lemma ascending_snoc (l : list nat) (c : nat) :
  ascending l → Forall (λ x, x ≤ c) l → ascending (l ++ [c]).
Proof.
  intros Hasc Hall i j a b Hij Hi Hj.
  assert (∀ n x, (l ++ [c]) !! n = Some x → n < length l ∧ l !! n = Some x ∨ x = c)
    as Hsplit.
  { intros n x Hn. destruct (decide (n < length l)) as [Hlt|Hge].
    - left. split; [done|]. by rewrite lookup_app_l in Hn.
    - right. rewrite lookup_app_r in Hn by lia.
      apply list_lookup_singleton_Some in Hn as [_ Hx]. done. }
  rewrite Forall_forall in Hall.
  destruct (Hsplit j b Hj) as [[Hjlt Hjl]| ->].
  - rewrite lookup_app_l in Hi by lia. exact (Hasc i j a b Hij Hi Hjl).
  - destruct (Hsplit i a Hi) as [[_ Hil]| ->]; [|done].
    apply Hall. by eapply list_elem_of_lookup_2.
Qed.

Lemma ascending_apart (l : list nat) : ascending l → cycles_apart l.
Proof.
  intros Hasc i j k c c' Hij Hjk Hi Hj Hk.
  assert (c ≤ c') by (eapply (Hasc i j); [lia|done|done]).
  assert (c' ≤ c) by (eapply (Hasc j k); [lia|done|done]).
  lia.
Qed.

Lemma moment_exclusive (m : Core.Moment) (g g' : Core.Guard) :
  exclusive g → Core.moment m g = Some g' → exclusive g'.
Proof.
  intros (Hflag & Hcalls & Hasc) Hstep.
  destruct m as [|c|c]; simpl in Hstep.
  - destruct Hflag as [[Hoff Hnone]|[Hon Hone]].
    + rewrite Hoff in Hstep. injection Hstep as <-. unfold exclusive. simpl.
      split_and!; [|eapply Forall_impl; [exact Hcalls|simpl; lia]|done].
      right. split; [done|]. exists (Core.started g). by rewrite Hnone.
    + rewrite Hon in Hstep. injection Hstep as <-.
      split_and!; [by right|done|done].
  - case_bool_decide as Hin; [|done]. injection Hstep as <-. unfold exclusive. simpl.
    destruct Hflag as [[_ Hnone]|[Hon (c0 & Hone & Hstarted)]];
      [rewrite Hnone in Hin; by apply elem_of_nil in Hin|].
    rewrite Hone in Hin. apply list_elem_of_singleton in Hin. subst c0.
    split_and!.
    + right. split; [done|]. by exists c.
    + apply Forall_app. split; [done|]. constructor; [lia|constructor].
    + apply ascending_snoc; [done|].
      eapply Forall_impl; [exact Hcalls|]. simpl. lia.
  - case_bool_decide as Hin; [|done]. injection Hstep as <-. unfold exclusive. simpl.
    destruct Hflag as [[_ Hnone]|[Hon (c0 & Hone & Hstarted)]];
      [rewrite Hnone in Hin; by apply elem_of_nil in Hin|].
    rewrite Hone in Hin. apply list_elem_of_singleton in Hin. subst c0.
    split_and!; [|done|done].
    left. split; [done|]. rewrite Hone, filter_cons, decide_False by tauto. done.
Qed.

Lemma moments_exclusive (ms : list Core.Moment) (g g' : Core.Guard) :
  exclusive g → Core.moments ms g = Some g' → exclusive g'.
Proof.
  revert g. induction ms as [|m ms IH]; intros g Hg Hrun.
  - injection Hrun as <-. done.
  - simpl in Hrun. destruct (Core.moment m g) as [g1|] eqn:Hstep; [|done].
    eapply IH; [|exact Hrun]. by eapply moment_exclusive.
Qed.

(** C2. With the in-flight guard of the coordinator, however callers invoke
    [refresh()] and however the moments of the cycles are arranged, at most
    one cycle executes at a time, a cycle executes only while the flag is up,
    a caller that arrives while a cycle is in flight starts nothing, and the
    provider calls of two cycles never interleave. *)
Theorem at_most_one_cycle (ms : list Core.Moment) (g : Core.Guard) :
  Core.moments ms Core.idle = Some g →
  length (Core.executing g) ≤ 1 ∧
  (Core.refreshing g = false → Core.executing g = []) ∧
  (Core.refreshing g = true → Core.moment Core.Refresh_called g = Some g) ∧
  cycles_apart (Core.calls g).
Proof.
  intros Hrun.
  assert (exclusive Core.idle) as Hidle.
  { split_and!; [by left|constructor|]. intros i j a b _ Hi. done. }
  destruct (moments_exclusive ms Core.idle g Hidle Hrun) as (Hflag & _ & Hasc).
  split_and!.
  - destruct Hflag as [[_ ->]|[_ (c & -> & _)]]; simpl; lia.
  - intros Hoff. destruct Hflag as [[_ Hnone]|[Hon _]]; [done|congruence].
  - intros Hon. simpl. by rewrite Hon.
  - by apply ascending_apart.
Qed.

Lemma at_most_one_cycle_witness :
  let ms := [Core.Refresh_called; Core.Provider_called 0; Core.Refresh_called;
             Core.Provider_called 0; Core.Cycle_completed 0; Core.Refresh_called;
             Core.Provider_called 1] in
  let g := Core.mkGuard true [1] 2 [0; 0; 1] in
  Core.moments ms Core.idle = Some g ∧
  length (Core.executing g) ≤ 1 ∧
  cycles_apart (Core.calls g).
Proof.
  intros ms g.
  assert (Core.moments ms Core.idle = Some g) as Hrun by reflexivity.
  destruct (at_most_one_cycle ms g Hrun) as (Hone & _ & _ & Hapart).
  split_and!; [exact Hrun | exact Hone | exact Hapart].
Defined.

(** The amounts that the page shows are the binary64 numbers of the
    decimals of a sample; their own sum is the shown total only up to
    rounding: the sample with 0.1 and 0.2 is shown with the total 0.3, which
    is not the binary64 sum of 0.1 and 0.2. *)
Lemma rendered_up_to_rounding :
  let s := Core.sample "0xA" 100000 200000 1000 false in
  rendered (Core.to_wallet_data s) ∧ ¬ consistent (Core.to_wallet_data s).
Proof.
  intros s. split; [by exists s|].
  unfold consistent. vm_compute. discriminate.
Qed.
